(** * The object-storage uploader of plugin-node ([services/awsS3.ts])

  A shallow embedding of [AwsS3Service] (initialize, uploadFile,
  generateSignedUrl, getContentType, uploadJson) together with the small
  part of the JavaScript and Node platform the service relies on:
  truthiness, template literals, [String.prototype.replaceAll] and
  [replace] with the pattern [/\/+/g], [JSON.stringify] with an indent,
  and [path.basename] / [path.extname] (POSIX flavour).

  Strings are byte strings; [async] functions are modelled by the
  sequential order of their awaited calls. *)

From Stdlib Require Import ZArith Ascii String List Bool Lia.
From stdpp Require Import base strings gmap pretty.

Open Scope string_scope.
Open Scope Z_scope.

Set Warnings "-register-all".

(* ===================================================================== *)
(** ** JavaScript values and strings *)
(* ===================================================================== *)

Module Js.

Definition slash : ascii := "/"%char.
Definition dot : ascii := "."%char.
Definition dquote : ascii := "034"%char.
Definition backslash : ascii := "\"%char.
Definition newline : ascii := "010"%char.

Definition str (c : ascii) : string := String c EmptyString.

(** [`${x}`] for a value that is a string or [undefined]. *)
Definition template (x : option string) : string :=
  match x with
  | Some s => s
  | None => "undefined"
  end.

(** [!x] for a value that is a string, [null] or [undefined]. *)
Definition falsy (x : option string) : bool :=
  match x with
  | None => true
  | Some EmptyString => true
  | Some (String _ _) => false
  end.

(** [x || d] on such a value. *)
Definition or_else (x : option string) (d : string) : string :=
  if falsy x then d else template x.

(** [x ?? d]: only [null] and [undefined] are replaced. *)
Definition nullish (x : option string) (d : string) : string :=
  match x with
  | Some s => s
  | None => d
  end.

(** [c.toLowerCase()] on one byte: only A-Z change. *)
Definition lower_ascii (c : ascii) : ascii :=
  let n := N_of_ascii c in
  if ((65 <=? n) && (n <=? 90))%N then ascii_of_N (n + 32) else c.

Fixpoint toLowerCase (s : string) : string :=
  match s with
  | EmptyString => EmptyString
  | String c r => String (lower_ascii c) (toLowerCase r)
  end.

(** [s.replaceAll('//', '/')]: the occurrences of the two-character
    pattern are found left to right and do not overlap; the scan resumes
    after each match, so the replacement is not examined again. *)
Fixpoint replaceAll_slash2 (s : string) : string :=
  match s with
  | EmptyString => EmptyString
  | String c r =>
      match r with
      | String c' r' =>
          if (Ascii.eqb c slash && Ascii.eqb c' slash)%bool
          then String slash (replaceAll_slash2 r')
          else String c (replaceAll_slash2 r)
      | EmptyString => String c EmptyString
      end
  end.

Definition starts_with_slash (s : string) : bool :=
  match s with
  | String c _ => Ascii.eqb c slash
  | EmptyString => false
  end.

(** [s.replace(/\/+/g, '/')]: every maximal run of slashes is one match
    and becomes one slash. *)
Fixpoint replace_slashes (s : string) : string :=
  match s with
  | EmptyString => EmptyString
  | String c r =>
      if Ascii.eqb c slash
      then (if starts_with_slash r then replace_slashes r
            else String slash (replace_slashes r))
      else String c (replace_slashes r)
  end.

(** Two adjacent slashes somewhere in the string. *)
Fixpoint has_double_slash (s : string) : bool :=
  match s with
  | EmptyString => false
  | String c r =>
      (Ascii.eqb c slash && starts_with_slash r) || has_double_slash r
  end.

(** Three adjacent slashes somewhere in the string. *)
Fixpoint has_triple_slash (s : string) : bool :=
  match s with
  | EmptyString => false
  | String c r =>
      (Ascii.eqb c slash && starts_with_slash r
       && match r with
          | String _ r' => starts_with_slash r'
          | EmptyString => false
          end)
      || has_triple_slash r
  end.

(** *** Numbers and values

    Numbers keep what the truthiness test and the JSON printer look at:
    NaN, the infinities, the negative zero, and the integers ([Int 0] is
    the positive zero). [Int z] stands for the number the literal [z]
    evaluates to: [z] itself up to 2^53 in magnitude, beyond that the
    double nearest to [z] (ties to the even mantissa), and an infinity
    from 2^1024 - 2^970 on. Numbers with a fractional part are not
    represented. *)
Inductive number :=
| NaN
| Infinity (negative : bool)
| NegZero
| Int (z : Z).

Inductive value :=
| VUndefined
| VNull
| VBool (b : bool)
| VNumber (n : number)
| VString (s : string)
| VArray (items : list value)
| VObject (props : list (string * value)).

(** The abstract operation ToBoolean, which [!x] and [if (x)] apply. *)
Definition ToBoolean (v : value) : bool :=
  match v with
  | VUndefined | VNull => false
  | VBool b => b
  | VNumber NaN | VNumber NegZero => false
  | VNumber (Int z) => negb (z =? 0)
  | VNumber (Infinity _) => true
  | VString EmptyString => false
  | VString (String _ _) => true
  | VArray _ | VObject _ => true
  end.

(** *** JSON.stringify *)

Definition hex_digit (n : N) : ascii :=
  match String.get (N.to_nat n) "0123456789abcdef" with
  | Some c => c
  | None => "0"%char
  end.

(** One code unit inside QuoteJSONString. *)
Definition quote_char (c : ascii) : string :=
  let n := N_of_ascii c in
  if Ascii.eqb c dquote then String backslash (str dquote)
  else if Ascii.eqb c backslash then String backslash (str backslash)
  else if (n =? 8)%N then "\b"
  else if (n =? 9)%N then "\t"
  else if (n =? 10)%N then "\n"
  else if (n =? 12)%N then "\f"
  else if (n =? 13)%N then "\r"
  else if (n <? 32)%N
       then "\u00" +:+ str (hex_digit (n / 16)) +:+ str (hex_digit (n mod 16))
  else str c.

Fixpoint quote_body (s : string) : string :=
  match s with
  | EmptyString => EmptyString
  | String c r => quote_char c +:+ quote_body r
  end.

Definition QuoteJSONString (s : string) : string :=
  str dquote +:+ quote_body s +:+ str dquote.

Definition is_empty (s : string) : bool :=
  match s with
  | EmptyString => true
  | String _ _ => false
  end.

(** *** Number::toString on integers

    The double nearest to a positive integer, as a 53-bit mantissa and a
    binary exponent; below 2^53 every integer is its own double. *)
Definition nearest_double (z : Z) : Z * Z :=
  if z <? 2 ^ 53 then (z, 0)
  else
    let e := Z.log2 z - 52 in
    let q := z / 2 ^ e in
    let r := z mod 2 ^ e in
    let half := 2 ^ (e - 1) in
    let m := if (half <? r) || ((r =? half) && Z.odd q) then q + 1 else q in
    if m =? 2 ^ 53 then (2 ^ 52, e + 1) else (m, e).

Definition ndigits (x : Z) : Z := Z.of_nat (String.length (pretty x)).

(** Whether the real [v] rounds to the double [m * 2^e] (with [e >= 1]):
    it lies between the midpoints to the two neighbouring doubles, the
    midpoints themselves counting when [m] is even. Below a power of two
    the neighbour is half as far. Compared in quarters of a unit. *)
Definition rounds_to (m e v : Z) : bool :=
  let x := m * 2 ^ e in
  let lo4 := 4 * x - (if m =? 2 ^ 52 then 2 ^ e else 2 * 2 ^ e) in
  let hi4 := 4 * x + 2 * 2 ^ e in
  if Z.even m then (lo4 <=? 4 * v) && (4 * v <=? hi4)
  else (lo4 <? 4 * v) && (4 * v <? hi4).

(** The candidates with [k] significant digits next to [x] that round to
    it, the nearer one first; of two equally near, the one whose last
    digit is even. *)
Definition with_digits (m e nx k : Z) : option Z :=
  let x := m * 2 ^ e in
  let unit := 10 ^ (nx - k) in
  let v1 := x / unit * unit in
  let v2 := v1 + unit in
  match rounds_to m e v1, rounds_to m e v2 with
  | true, true =>
      if x - v1 <? v2 - x then Some v1
      else if v2 - x <? x - v1 then Some v2
      else if Z.even (v1 / unit) then Some v1 else Some v2
  | true, false => Some v1
  | false, true => Some v2
  | false, false => None
  end.

Fixpoint first_some {A} (f : Z -> option A) (ks : list Z) : option A :=
  match ks with
  | [] => None
  | k :: ks' =>
      match f k with
      | Some a => Some a
      | None => first_some f ks'
      end
  end.

(** The integer with the fewest significant digits that rounds to the
    double [m * 2^e]: the digits Number::toString prints. *)
Definition shortest_integer (m e : Z) : Z :=
  let x := m * 2 ^ e in
  let nx := ndigits x in
  match first_some (with_digits m e nx)
          (List.map Z.of_nat (seq 1 (Z.to_nat nx))) with
  | Some v => v
  | None => x
  end.

Fixpoint drop_zeros (l : list ascii) : list ascii :=
  match l with
  | c :: l' => if Ascii.eqb c "0"%char then drop_zeros l' else l
  | [] => []
  end.

Definition strip_trailing_zeros (s : string) : string :=
  string_of_list_ascii
    (rev (drop_zeros (rev (list_ascii_of_string s)))).

(** Number::toString of a positive finite integer-valued double with
    shortest digits [v]: plain digits up to 21 of them, otherwise one
    digit, the remaining significant digits after a point, and the
    exponent. *)
Definition print_integer (v : Z) : string :=
  let n := ndigits v in
  if n <=? 21 then pretty v
  else
    match strip_trailing_zeros (pretty v) with
    | String d rest =>
        String d (if is_empty rest then "" else "." +:+ rest)
        +:+ "e+" +:+ pretty (n - 1)
    | EmptyString => EmptyString
    end.

(** A positive integer as JSON.stringify prints the number it stands
    for; an overflow to Infinity prints as null. *)
Definition positive_to_json (z : Z) : string :=
  let '(m, e) := nearest_double z in
  if e =? 0 then pretty z
  else if 971 <? e then "null"
  else print_integer (shortest_integer m e).

Definition integer_to_json (z : Z) : string :=
  if z =? 0 then "0"
  else if z <? 0 then
    (if 971 <? snd (nearest_double (- z)) then "null"
     else "-" +:+ positive_to_json (- z))
  else positive_to_json z.

Definition number_to_json (n : number) : string :=
  match n with
  | NaN | Infinity _ => "null"
  | NegZero => "0"
  | Int z => integer_to_json z
  end.

(** Brackets around the already serialized members, as
    SerializeJSONArray and SerializeJSONObject lay them out. *)
Definition wrap (open close gap stepback indent : string)
    (partial : list string) : string :=
  match partial with
  | [] => open +:+ close
  | _ =>
      if is_empty gap
      then open +:+ String.concat "," partial +:+ close
      else open +:+ str newline +:+ indent
           +:+ String.concat ("," +:+ str newline +:+ indent) partial
           +:+ str newline +:+ stepback +:+ close
  end.

(** SerializeJSONProperty; [None] is the result [undefined]. Object
    properties are listed in property-enumeration order. *)
Fixpoint SerializeJSONProperty (gap indent : string) (v : value)
    : option string :=
  match v with
  | VUndefined => None
  | VNull => Some "null"
  | VBool true => Some "true"
  | VBool false => Some "false"
  | VNumber n => Some (number_to_json n)
  | VString s => Some (QuoteJSONString s)
  | VArray items =>
      let indent' := indent +:+ gap in
      let partial :=
        (fix members (l : list value) : list string :=
           match l with
           | [] => []
           | x :: l' =>
               match SerializeJSONProperty gap indent' x with
               | Some s => s
               | None => "null"
               end :: members l'
           end) items in
      Some (wrap "[" "]" gap indent indent' partial)
  | VObject props =>
      let indent' := indent +:+ gap in
      let colon := if is_empty gap then ":" else ": " in
      let partial :=
        (fix members (l : list (string * value)) : list string :=
           match l with
           | [] => []
           | (k, x) :: l' =>
               match SerializeJSONProperty gap indent' x with
               | Some s => (QuoteJSONString k +:+ colon +:+ s) :: members l'
               | None => members l'
               end
           end) props in
      Some (wrap "{" "}" gap indent indent' partial)
  end.

Fixpoint spaces (n : nat) : string :=
  match n with
  | O => EmptyString
  | S n' => String " "%char (spaces n')
  end.

(** [JSON.stringify(v, null, space)] for a numeric [space]. *)
Definition JSON_stringify (v : value) (space : nat) : option string :=
  SerializeJSONProperty (spaces (Nat.min 10 space)) "" v.

End Js.

(* ===================================================================== *)
(** ** Node's [path] module (POSIX) *)
(* ===================================================================== *)

Module Path.
Import Js.

(** The characters of a path with their indices, last one first: the
    order in which both functions scan. *)
Definition scan_order (p : string) : list (Z * ascii) :=
  rev (imap (fun i c => (Z.of_nat i, c)) (list_ascii_of_string p)).

Definition slice (p : string) (from to : Z) : string :=
  String.substring (Z.to_nat from) (Z.to_nat (to - from)) p.

Record base_state := {
  b_start : Z;
  b_end : Z;
  b_matchedSlash : bool;
  b_stop : bool
}.

Definition basename_step (st : base_state) (ic : Z * ascii) : base_state :=
  let '(i, c) := ic in
  if b_stop st then st
  else if Ascii.eqb c slash then
    if negb (b_matchedSlash st)
    then {| b_start := i + 1; b_end := b_end st;
            b_matchedSlash := b_matchedSlash st; b_stop := true |}
    else st
  else if b_end st =? -1 then
    {| b_start := b_start st; b_end := i + 1;
       b_matchedSlash := false; b_stop := false |}
  else st.

(** [path.basename(p)] without a suffix argument. *)
Definition basename (p : string) : string :=
  let st := fold_left basename_step (scan_order p)
              {| b_start := 0; b_end := -1;
                 b_matchedSlash := true; b_stop := false |} in
  if b_end st =? -1 then "" else slice p (b_start st) (b_end st).

Record ext_state := {
  startDot : Z;
  startPart : Z;
  e_end : Z;
  matchedSlash : bool;
  preDotState : Z;
  e_stop : bool
}.

Definition extname_step (st : ext_state) (ic : Z * ascii) : ext_state :=
  let '(i, c) := ic in
  if e_stop st then st
  else if Ascii.eqb c slash then
    if negb (matchedSlash st)
    then {| startDot := startDot st; startPart := i + 1; e_end := e_end st;
            matchedSlash := matchedSlash st; preDotState := preDotState st;
            e_stop := true |}
    else st
  else
    let st1 :=
      if e_end st =? -1
      then {| startDot := startDot st; startPart := startPart st;
              e_end := i + 1; matchedSlash := false;
              preDotState := preDotState st; e_stop := false |}
      else st in
    if Ascii.eqb c dot then
      if startDot st1 =? -1
      then {| startDot := i; startPart := startPart st1; e_end := e_end st1;
              matchedSlash := matchedSlash st1;
              preDotState := preDotState st1; e_stop := false |}
      else {| startDot := startDot st1; startPart := startPart st1;
              e_end := e_end st1; matchedSlash := matchedSlash st1;
              preDotState := 1; e_stop := false |}
    else if negb (startDot st1 =? -1)
    then {| startDot := startDot st1; startPart := startPart st1;
            e_end := e_end st1; matchedSlash := matchedSlash st1;
            preDotState := -1; e_stop := false |}
    else st1.

(** [path.extname(p)]. *)
Definition extname (p : string) : string :=
  let st := fold_left extname_step (scan_order p)
              {| startDot := -1; startPart := 0; e_end := -1;
                 matchedSlash := true; preDotState := 0;
                 e_stop := false |} in
  if (startDot st =? -1) || (e_end st =? -1) || (preDotState st =? 0)
     || ((preDotState st =? 1) && (startDot st =? e_end st - 1)
         && (startDot st =? startPart st + 1))
  then ""
  else slice p (startDot st) (e_end st).

End Path.


(* ===================================================================== *)
(** ** The service *)
(* ===================================================================== *)

Module AwsS3.
Import Js.

(** What a [catch] clause can receive: an [Error] carrying a message, or
    any other thrown value. *)
Inductive exn :=
| ErrorExn (message : string)
| Thrown (v : value).

(** The settings source: [runtime.getSetting(key)] yields a string or
    [null]. *)
Record IAgentRuntime := {
  getSetting : string -> option string
}.

(** [new S3Client({region, credentials: {accessKeyId, secretAccessKey}})]. *)
Record S3Client := {
  region : string;
  accessKeyId : string;
  secretAccessKey : string
}.

Inductive body :=
| FileBytes (content : string)
| JsonText (text : string)
| NoBody.

Record PutObjectCommand := {
  Bucket : option string;
  Key : string;
  Body : body;
  ContentType : string
}.

Record GetObjectCommand := {
  get_Bucket : option string;
  get_Key : string
}.

(** Calls that reach the storage SDK, in the order they are issued. *)
Inductive event :=
| Send (client : S3Client) (cmd : PutObjectCommand)
| Presign (client : option S3Client) (cmd : GetObjectCommand) (expiresIn : Z).

(** The fields of the service instance ([undefined] before [initialize]). *)
Record AwsS3Service := {
  s3Client : option S3Client;
  bucket : option string;
  fileUploadPath : option string;
  runtime : option IAgentRuntime
}.

Definition fresh : AwsS3Service :=
  {| s3Client := None; bucket := None; fileUploadPath := None;
     runtime := None |}.

Record Heap := {
  this : AwsS3Service;
  log : list event
}.

(** Everything outside the service that one call observes. [Date_now] is
    [Date.now()]: a whole number of milliseconds, at most 8.64e15 in
    magnitude, so a template literal prints all its digits. *)
Record World := {
  existsSync : string -> bool;
  readFileSync : string -> exn + string;
  Date_now : Z;
  process_env : string -> option string;
  s3_send : S3Client -> PutObjectCommand -> exn + unit;
  getSignedUrl : option S3Client -> GetObjectCommand -> Z -> exn + string
}.

(** *** State and exceptions *)

Inductive completion (A : Type) :=
| Normal (a : A)
| Throw (e : exn).
Arguments Normal {A} a.
Arguments Throw {A} e.

Definition M (A : Type) : Type := Heap -> completion A * Heap.

Definition ret {A} (a : A) : M A := fun h => (Normal a, h).

Definition bind {A B} (m : M A) (k : A -> M B) : M B :=
  fun h =>
    match m h with
    | (Normal a, h') => k a h'
    | (Throw e, h') => (Throw e, h')
    end.

Definition throw {A} (e : exn) : M A := fun h => (Throw e, h).

Definition try_catch {A} (m : M A) (handler : exn -> M A) : M A :=
  fun h =>
    match m h with
    | (Normal a, h') => (Normal a, h')
    | (Throw e, h') => handler e h'
    end.

Definition get_this : M AwsS3Service := fun h => (Normal (this h), h).

Definition set_this (f : AwsS3Service -> AwsS3Service) : M unit :=
  fun h => (Normal tt, {| this := f (this h); log := log h |}).

Definition emit (e : event) : M unit :=
  fun h => (Normal tt, {| this := this h; log := log h ++ [e] |}).

(** The answer of an outside call: a value or an exception. *)
Definition answer {A} (r : exn + A) : M A :=
  match r with
  | inl e => throw e
  | inr a => ret a
  end.

Notation "'call' x <- m ; k" := (bind m (fun x => k))
  (at level 10, x name, m at level 100, k at level 200,
   format "'[v' 'call'  x  <-  m ; '/' k ']'").
Notation "'exec' m ; k" := (bind m (fun _ => k))
  (at level 10, m at level 100, k at level 200,
   format "'[v' 'exec'  m ; '/' k ']'").

(** *** Results *)

Record UploadResult := {
  success : bool;
  url : option string;
  error : option string
}.

(** [JsonUploadResult extends UploadResult] with the stored key. *)
Record JsonUploadResult := {
  upload : UploadResult;
  key : option string
}.

Definition failure (msg : string) : UploadResult :=
  {| success := false; url := None; error := Some msg |}.

(** [error instanceof Error ? error.message : "Unknown error occurred"]. *)
Definition error_text (e : exn) : string :=
  match e with
  | ErrorExn m => m
  | Thrown _ => "Unknown error occurred"
  end.

(** *** initialize

    The [console.log] line has no effect on the instance or on the
    storage SDK and is left out. The runtime is stored before the
    settings are examined, so it is set even when the call throws. *)

Definition missing_credentials : exn :=
  ErrorExn "Missing required AWS credentials in environment variables".

Definition initialize (rt : IAgentRuntime) : M unit :=
  exec set_this (fun t => {| s3Client := s3Client t; bucket := bucket t;
                           fileUploadPath := fileUploadPath t;
                           runtime := Some rt |}) ;
  let AWS_ACCESS_KEY_ID := getSetting rt "AWS_ACCESS_KEY_ID" in
  let AWS_SECRET_ACCESS_KEY := getSetting rt "AWS_SECRET_ACCESS_KEY" in
  let AWS_REGION := getSetting rt "AWS_REGION" in
  let AWS_S3_BUCKET := getSetting rt "AWS_S3_BUCKET" in
  if falsy AWS_ACCESS_KEY_ID || falsy AWS_SECRET_ACCESS_KEY
     || falsy AWS_REGION || falsy AWS_S3_BUCKET
  then throw missing_credentials
  else
    exec set_this (fun t =>
      {| s3Client := Some {| region := template AWS_REGION;
                             accessKeyId := template AWS_ACCESS_KEY_ID;
                             secretAccessKey := template AWS_SECRET_ACCESS_KEY |};
         bucket := bucket t; fileUploadPath := fileUploadPath t;
         runtime := runtime t |}) ;
    exec set_this (fun t =>
      {| s3Client := s3Client t; bucket := bucket t;
         fileUploadPath :=
           Some (nullish (getSetting rt "AWS_S3_UPLOAD_PATH") "");
         runtime := runtime t |}) ;
    set_this (fun t =>
      {| s3Client := s3Client t; bucket := AWS_S3_BUCKET;
         fileUploadPath := fileUploadPath t; runtime := runtime t |}).

(** *** getContentType *)

(** The object literal of [getContentType]. Every key starts with a dot,
    so no inherited property of the literal can be hit by an extension. *)
Definition contentTypes : gmap string string :=
  list_to_map
    [(".png", "image/png"); (".jpg", "image/jpeg"); (".jpeg", "image/jpeg");
     (".gif", "image/gif"); (".webp", "image/webp")].

Definition getContentType (filePath : string) : string :=
  let ext := toLowerCase (Path.extname filePath) in
  match contentTypes !! ext with
  | Some t => if is_empty t then "application/octet-stream" else t
  | None => "application/octet-stream"
  end.

Section Calls.
Variable w : World.

(** [this.s3Client.send(new PutObjectCommand(params))]; on an instance
    without a client the property access itself throws. *)
Definition send (cmd : PutObjectCommand) : M unit :=
  call t <- get_this ;
  match s3Client t with
  | None =>
      throw (ErrorExn
        "Cannot read properties of undefined (reading 'send')")
  | Some c => exec emit (Send c cmd) ; answer (s3_send w c cmd)
  end.

(** [getSignedUrl(this.s3Client, new GetObjectCommand(..), {expiresIn})]. *)
Definition presign (fileName : string) (expiresIn : Z) : M string :=
  call t <- get_this ;
  let cmd := {| get_Bucket := bucket t; get_Key := fileName |} in
  exec emit (Presign (s3Client t) cmd expiresIn) ;
  answer (getSignedUrl w (s3Client t) cmd expiresIn).

(** The public address built when no signed URL is asked for. *)
Definition public_url (fileName : string) : M string :=
  call t <- get_this ;
  ret ("https://" +:+ template (bucket t) +:+ ".s3."
       +:+ template (process_env w "AWS_REGION")
       +:+ ".amazonaws.com/" +:+ fileName).

(** *** uploadFile *)

(** The key computed by [uploadFile] under prefix [prefix]. *)
Definition file_key (prefix : option string) (filePath : string) : string :=
  let baseFileName := pretty (Date_now w) +:+ "-" +:+ Path.basename filePath in
  replaceAll_slash2 (template prefix +:+ "/" +:+ baseFileName).

(** The [try] block. *)
Definition uploadFile_try (filePath : string) (useSignedUrl : bool)
    (expiresIn : Z) : M UploadResult :=
  if negb (existsSync w filePath)
  then ret (failure "File does not exist")
  else
    call fileContent <- answer (readFileSync w filePath) ;
    call t <- get_this ;
    let fileName := file_key (fileUploadPath t) filePath in
    let uploadParams :=
      {| Bucket := bucket t; Key := fileName;
         Body := FileBytes fileContent;
         ContentType := getContentType filePath |} in
    exec send uploadParams ;
    call u <- (if negb useSignedUrl then public_url fileName
          else presign fileName expiresIn) ;
    ret {| success := true; url := Some u; error := None |}.

Definition uploadFile (filePath : string) (useSignedUrl : option bool)
    (expiresIn : option Z) : M UploadResult :=
  try_catch
    (uploadFile_try filePath (default false useSignedUrl)
       (default 900 expiresIn))
    (fun e => ret (failure (error_text e))).

(** *** generateSignedUrl *)

Definition generateSignedUrl (fileName : string) (expiresIn : option Z)
    : M string :=
  presign fileName (default 900 expiresIn).

(** *** uploadJson *)

(** The key computed by [uploadJson]. *)
Definition json_key (prefix fileName subDirectory : option string) : string :=
  let timestamp := Date_now w in
  let actualFileName := or_else fileName (pretty timestamp +:+ ".json") in
  let fullPath := or_else prefix "" in
  let fullPath :=
    if negb (falsy subDirectory)
    then replace_slashes (fullPath +:+ "/" +:+ template subDirectory)
    else fullPath in
  replace_slashes (fullPath +:+ "/" +:+ actualFileName).

Definition json_body (jsonData : value) : body :=
  match JSON_stringify jsonData 2 with
  | Some s => JsonText s
  | None => NoBody
  end.

Definition uploadJson_try (jsonData : value)
    (fileName subDirectory : option string) (useSignedUrl : bool)
    (expiresIn : Z) : M JsonUploadResult :=
  if negb (ToBoolean jsonData)
  then ret {| upload := failure "JSON data is required"; key := None |}
  else
    call t <- get_this ;
    let k := json_key (fileUploadPath t) fileName subDirectory in
    let uploadParams :=
      {| Bucket := bucket t; Key := k; Body := json_body jsonData;
         ContentType := "application/json" |} in
    exec send uploadParams ;
    call u <- (if negb useSignedUrl then public_url k
          else presign k expiresIn) ;
    ret {| upload := {| success := true; url := Some u; error := None |};
           key := Some k |}.

Definition uploadJson (jsonData : value)
    (fileName subDirectory : option string) (useSignedUrl : option bool)
    (expiresIn : option Z) : M JsonUploadResult :=
  try_catch
    (uploadJson_try jsonData fileName subDirectory
       (default false useSignedUrl) (default 900 expiresIn))
    (fun e => ret {| upload := failure (error_text e); key := None |}).

End Calls.

End AwsS3.

(* ===================================================================== *)
(** ** Reference formulations and sample environments *)
(* ===================================================================== *)

Module Spec.
Import Js AwsS3.

(** The four settings [initialize] cannot do without. *)
Definition required : list string :=
  ["AWS_ACCESS_KEY_ID"; "AWS_SECRET_ACCESS_KEY"; "AWS_REGION";
   "AWS_S3_BUCKET"].

(** A setting is present when the source yields a non-empty string. *)
Definition present (rt : IAgentRuntime) (k : string) : Prop :=
  exists s, getSetting rt k = Some s /\ s <> "".

(** The content-type table as the documentation lists it, read on an
    already lower-cased extension. *)
Definition table_type (ext : string) : string :=
  if String.eqb ext ".png" then "image/png"
  else if String.eqb ext ".jpg" then "image/jpeg"
  else if String.eqb ext ".jpeg" then "image/jpeg"
  else if String.eqb ext ".gif" then "image/gif"
  else if String.eqb ext ".webp" then "image/webp"
  else "application/octet-stream".

(** The same table as a list of rows. *)
Definition table : list (string * string) :=
  [(".png", "image/png"); (".jpg", "image/jpeg"); (".jpeg", "image/jpeg");
   (".gif", "image/gif"); (".webp", "image/webp")].

(** [https://B.s3.R.amazonaws.com/K]. *)
Definition address (B R K : string) : string :=
  "https://" +:+ B +:+ ".s3." +:+ R +:+ ".amazonaws.com/" +:+ K.

(** [{prefix}[/{subDirectory}]/{fileName}] before any slash is collapsed;
    an absent or empty part contributes nothing. *)
Definition raw_json_path (prefix subDirectory : option string)
    (fileName : string) : string :=
  or_else prefix ""
  +:+ (if falsy subDirectory then "" else "/" +:+ template subDirectory)
  +:+ "/" +:+ fileName.

(** [{prefix}/{timestamp}-{basename}] before any slash is collapsed. *)
Definition raw_file_path (prefix : string) (now : Z) (filePath : string)
    : string :=
  prefix +:+ "/" +:+ pretty now +:+ "-" +:+ Path.basename filePath.

Definition succeeded (u : string) : UploadResult :=
  {| success := true; url := Some u; error := None |}.

Definition rejected (msg : string) : JsonUploadResult :=
  {| upload := failure msg; key := None |}.

(** The request [uploadFile] sends for a file with the given content. *)
Definition file_put (w : World) (t : AwsS3Service) (filePath content : string)
    : PutObjectCommand :=
  {| Bucket := bucket t; Key := file_key w (fileUploadPath t) filePath;
     Body := FileBytes content; ContentType := getContentType filePath |}.

(** The request [uploadJson] sends. *)
Definition json_put (w : World) (t : AwsS3Service) (jsonData : value)
    (fileName subDirectory : option string) : PutObjectCommand :=
  {| Bucket := bucket t;
     Key := json_key w (fileUploadPath t) fileName subDirectory;
     Body := json_body jsonData; ContentType := "application/json" |}.

Definition get_cmd (t : AwsS3Service) (k : string) : GetObjectCommand :=
  {| get_Bucket := bucket t; get_Key := k |}.

(** The heap after one more backend call. *)
Definition logged (h : Heap) (e : event) : Heap :=
  {| this := this h; log := log h ++ [e] |}.

(** What follows the request, once it has been accepted: the address. *)
Definition after_put (w : World) (h : Heap) (c : S3Client) (k : string)
    (useSignedUrl : bool) (expiresIn : Z) (h1 : Heap)
    : completion string * Heap :=
  if useSignedUrl then
    let h2 := logged h1
                (Presign (Some c) (get_cmd (this h) k) expiresIn) in
    match getSignedUrl w (Some c) (get_cmd (this h) k) expiresIn with
    | inl e => (Throw e, h2)
    | inr u => (Normal u, h2)
    end
  else
    (Normal (address (template (bucket (this h)))
               (template (process_env w "AWS_REGION")) k), h1).

(** An outside call made on behalf of [uploadFile] on an existing file
    raises [e]: reading the file, sending the object, or signing. *)
Inductive file_fault (w : World) (h : Heap) (filePath : string)
    (useSignedUrl : bool) (expiresIn : Z) (e : exn) : Prop :=
| read_fault :
    readFileSync w filePath = inl e ->
    file_fault w h filePath useSignedUrl expiresIn e
| send_fault content c :
    readFileSync w filePath = inr content ->
    s3Client (this h) = Some c ->
    s3_send w c (file_put w (this h) filePath content) = inl e ->
    file_fault w h filePath useSignedUrl expiresIn e
| sign_fault content c :
    readFileSync w filePath = inr content ->
    s3Client (this h) = Some c ->
    s3_send w c (file_put w (this h) filePath content) = inr tt ->
    useSignedUrl = true ->
    getSignedUrl w (Some c)
      (get_cmd (this h) (file_key w (fileUploadPath (this h)) filePath))
      expiresIn = inl e ->
    file_fault w h filePath useSignedUrl expiresIn e.

(** The same for [uploadJson] on an accepted payload. *)
Inductive json_fault (w : World) (h : Heap) (jsonData : value)
    (fileName subDirectory : option string) (useSignedUrl : bool)
    (expiresIn : Z) (e : exn) : Prop :=
| json_send_fault c :
    s3Client (this h) = Some c ->
    s3_send w c (json_put w (this h) jsonData fileName subDirectory) = inl e ->
    json_fault w h jsonData fileName subDirectory useSignedUrl expiresIn e
| json_sign_fault c :
    s3Client (this h) = Some c ->
    s3_send w c (json_put w (this h) jsonData fileName subDirectory) = inr tt ->
    useSignedUrl = true ->
    getSignedUrl w (Some c)
      (get_cmd (this h) (json_key w (fileUploadPath (this h)) fileName subDirectory))
      expiresIn = inl e ->
    json_fault w h jsonData fileName subDirectory useSignedUrl expiresIn e.

(** A computation that leaves the fields of the instance as they were,
    whatever it returns or throws. *)
Definition keeps_this {A} (m : M A) : Prop :=
  forall h, this (snd (m h)) = this h.

(** A computation that completes normally from every state. *)
Definition never_throws {A} (m : M A) : Prop :=
  forall h, exists a, fst (m h) = Normal a.

End Spec.

Module Sample.
Import Js AwsS3.

Definition lookup (table : list (string * string)) (k : string)
    : option string :=
  match find (fun kv => String.eqb (fst kv) k) table with
  | Some kv => Some (snd kv)
  | None => None
  end.

(** A complete configuration with the given upload path. *)
Definition settings (uploadPath : string) : list (string * string) :=
  [("AWS_ACCESS_KEY_ID", "AKIAEXAMPLE"); ("AWS_SECRET_ACCESS_KEY", "secret");
   ("AWS_REGION", "eu-west-1"); ("AWS_S3_BUCKET", "my-bucket");
   ("AWS_S3_UPLOAD_PATH", uploadPath)].

Definition agent : IAgentRuntime :=
  {| getSetting := lookup (settings "uploads") |}.

(** The same source with an upload path that ends in two slashes. *)
Definition agent_slashes : IAgentRuntime :=
  {| getSetting := lookup (settings "uploads//") |}.

(** The same source with the bucket left empty. *)
Definition agent_without_bucket : IAgentRuntime :=
  {| getSetting := fun k =>
       if String.eqb k "AWS_S3_BUCKET" then Some ""
       else lookup (settings "uploads") k |}.

Definition client : S3Client :=
  {| region := "eu-west-1"; accessKeyId := "AKIAEXAMPLE";
     secretAccessKey := "secret" |}.

Definition empty_heap : Heap := {| this := fresh; log := [] |}.

(** The instance [initialize agent] leaves behind. *)
Definition ready : Heap :=
  {| this := {| s3Client := Some client; bucket := Some "my-bucket";
                fileUploadPath := Some "uploads";
                runtime := Some agent |};
     log := [] |}.

(** The instance [initialize agent_slashes] leaves behind. *)
Definition ready_slashes : Heap :=
  {| this := {| s3Client := Some client; bucket := Some "my-bucket";
                fileUploadPath := Some "uploads//";
                runtime := Some agent_slashes |};
     log := [] |}.

(** One file exists, every outside call succeeds, and the process
    environment holds no AWS_REGION (the settings come from the agent's
    own configuration). *)
Definition calm : World :=
  {| existsSync := fun p => String.eqb p "a/b/photo.PNG";
     readFileSync := fun _ => inr "PNGDATA";
     Date_now := 1700000000000;
     process_env := fun _ => None;
     s3_send := fun _ _ => inr tt;
     getSignedUrl := fun _ _ _ => inr "https://signed.example/object" |}.

(** The storage service refuses every request. *)
Definition refusing : World :=
  {| existsSync := existsSync calm;
     readFileSync := readFileSync calm;
     Date_now := Date_now calm;
     process_env := process_env calm;
     s3_send := fun _ _ => inl (ErrorExn "Access Denied");
     getSignedUrl := fun _ _ _ => inl (ErrorExn "Access Denied") |}.

End Sample.

(* ===================================================================== *)
(** ** The collection action ([plugin-nft-collection-generation/index.ts]) *)
(* ===================================================================== *)

Module Index.
Import Js AwsS3.

(** *** validate

    [!!runtime.getSetting(k)] for each of the four settings, joined by
    [||]. The message argument is not looked at. *)
Definition validate (rt : IAgentRuntime) : bool :=
  let AwsAccessKeyIdOk := negb (falsy (getSetting rt "AWS_ACCESS_KEY_ID")) in
  let AwsSecretAccessKeyOk :=
    negb (falsy (getSetting rt "AWS_SECRET_ACCESS_KEY")) in
  let AwsRegionOk := negb (falsy (getSetting rt "AWS_REGION")) in
  let AwsS3BucketOk := negb (falsy (getSetting rt "AWS_S3_BUCKET")) in
  AwsAccessKeyIdOk || AwsSecretAccessKeyOk || AwsRegionOk || AwsS3BucketOk.

(** *** The pattern [/^data:image\/\w+;base64,/] *)

(** [\w] without the unicode flag: A-Z, a-z, 0-9 and the underscore. *)
Definition is_word (c : ascii) : bool :=
  let n := N_of_ascii c in
  ((65 <=? n) && (n <=? 90) || (97 <=? n) && (n <=? 122)
   || (48 <=? n) && (n <=? 57) || (n =? 95))%N.

Fixpoint all_word (s : string) : bool :=
  match s with
  | EmptyString => true
  | String c r => is_word c && all_word r
  end.

(** What is left of [s] after the literal [p], when [s] starts with it. *)
Fixpoint after_literal (p s : string) : option string :=
  match p with
  | EmptyString => Some s
  | String a p' =>
      match s with
      | String b s' => if Ascii.eqb a b then after_literal p' s' else None
      | EmptyString => None
      end
  end.

(** The greedy [\w*]: the rest after the longest run of word characters. *)
Fixpoint after_word_run (s : string) : string :=
  match s with
  | String c r => if is_word c then after_word_run r else s
  | EmptyString => EmptyString
  end.

(** [base64Data.replace(/^data:image\/\w+;base64,/, "")]. The run [\w+]
    is followed by a semicolon, which is no word character, so only the
    longest run can lead to a match. *)
Definition strip_data_url (base64Data : string) : string :=
  match after_literal "data:image/" base64Data with
  | Some (String c r) =>
      if is_word c then
        match after_literal ";base64," (after_word_run r) with
        | Some rest => rest
        | None => base64Data
        end
      else base64Data
  | _ => base64Data
  end.

(** *** The host of the two save functions

    [path.join], [Buffer.from(s, "base64")] and the working directory are
    taken as given; the file system and the network answer each call with
    a value or an exception. *)
Record Response := {
  ok : bool;
  statusText : string;
  arrayBuffer : exn + string
}.

Record Host := {
  cwd : string;
  join : string -> string -> string;
  from_base64 : string -> string;
  dir_exists : string -> bool;
  mkdirSync : string -> exn + unit;
  writeFileSync : string -> string -> exn + unit;
  fetch : string -> exn + Response
}.

(** Calls that change or reach the outside, in the order issued. *)
Inductive effect :=
| Mkdir (dir : string)
| WriteFile (path content : string)
| Fetch (address : string).

Definition IO (A : Type) : Type := list effect -> completion A * list effect.

Definition io_ret {A} (a : A) : IO A := fun t => (Normal a, t).

Definition io_bind {A B} (m : IO A) (k : A -> IO B) : IO B :=
  fun t =>
    match m t with
    | (Normal a, t') => k a t'
    | (Throw e, t') => (Throw e, t')
    end.

Definition io_throw {A} (e : exn) : IO A := fun t => (Throw e, t).

(** One outside call: recorded, then answered. *)
Definition perform {A} (e : effect) (r : exn + A) : IO A :=
  fun t =>
    match r with
    | inl x => (Throw x, (t ++ [e])%list)
    | inr a => (Normal a, (t ++ [e])%list)
    end.

Notation "'io' x <- m ; k" := (io_bind m (fun x => k))
  (at level 10, x name, m at level 100, k at level 200,
   format "'[v' 'io'  x  <-  m ; '/' k ']'").
Notation "'run' m ; k" := (io_bind m (fun _ => k))
  (at level 10, m at level 100, k at level 200,
   format "'[v' 'run'  m ; '/' k ']'").

Section Saving.
Variable host : Host.

(** [path.join(process.cwd(), "generatedImages")]. *)
Definition imageDir : string := join host (cwd host) "generatedImages".

(** [if (!fs.existsSync(imageDir)) fs.mkdirSync(imageDir, {recursive: true})]. *)
Definition ensure_imageDir : IO unit :=
  if negb (dir_exists host imageDir)
  then perform (Mkdir imageDir) (mkdirSync host imageDir)
  else io_ret tt.

Definition saveBase64Image (base64Data filename : string) : IO string :=
  run ensure_imageDir ;
  let base64Image := strip_data_url base64Data in
  let imageBuffer := from_base64 host base64Image in
  let filepath := join host imageDir (filename +:+ ".png") in
  run perform (WriteFile filepath imageBuffer)
        (writeFileSync host filepath imageBuffer) ;
  io_ret filepath.

Definition saveHeuristImage (imageUrl filename : string) : IO string :=
  run ensure_imageDir ;
  io response <- perform (Fetch imageUrl) (fetch host imageUrl) ;
  if negb (ok response)
  then io_throw (ErrorExn ("Failed to fetch image: " +:+ statusText response))
  else
    io imageBuffer <- (fun t =>
                         match arrayBuffer response with
                         | inl e => (Throw e, t)
                         | inr b => (Normal b, t)
                         end) ;
    let filepath := join host imageDir (filename +:+ ".png") in
    run perform (WriteFile filepath imageBuffer)
          (writeFileSync host filepath imageBuffer) ;
    io_ret filepath.

(** The choice made for image [i] of the handler's loop, with the
    filename it builds from [Date.now()] and the index. *)
Definition save_generated (now : Z) (i : nat) (image : string) : IO string :=
  let filename := "generated_" +:+ pretty now +:+ "_" +:+ pretty i in
  if String.prefix "http" image
  then saveHeuristImage image filename
  else saveBase64Image image filename.

End Saving.

(** *** The storage steps of the handler

    For each generated image the handler uploads the saved file, then a
    metadata document that refers to the address just obtained, and keeps
    the address of that document as the collection's uri. Neither result's
    success flag is inspected in between. *)

(** [logoPath.url] inside an object literal. *)
Definition url_property (r : UploadResult) : value :=
  match url r with
  | Some u => VString u
  | None => VUndefined
  end.

(** [{name, description: `${name}`, image: logoPath.url}]. *)
Definition collection_metadata (name : string) (logoPath : UploadResult)
    : value :=
  VObject [("name", VString name); ("description", VString name);
           ("image", url_property logoPath)].

(** The two uploads for one collection image; [w1] and [w2] are the
    outside as each call finds it. The pair is the logo result and the
    uri handed on to the wallet. *)
Definition store_collection (w1 w2 : World) (filepath name : string)
    : M (UploadResult * option string) :=
  call logoPath <- uploadFile w1 filepath (Some false) None ;
  call jsonFilePath <-
    uploadJson w2 (collection_metadata name logoPath) None None None None ;
  ret (logoPath, url (upload jsonFilePath)).

End Index.

Module More.
Import Js AwsS3 Index.

Definition is_send (e : event) : bool :=
  match e with
  | Send _ _ => true
  | Presign _ _ _ => false
  end.

Definition is_presign (e : event) : bool := negb (is_send e).

(** [s] ends with [suffix]. *)
Definition ends_with (suffix s : string) : Prop :=
  exists front, s = front +:+ suffix.

Fixpoint has_slash (s : string) : bool :=
  match s with
  | EmptyString => false
  | String c r => Ascii.eqb c slash || has_slash r
  end.

(** A source that only knows a region. *)
Definition region_only : IAgentRuntime :=
  {| getSetting := fun k =>
       if String.eqb k "AWS_REGION" then Some "eu-west-1" else None |}.

(** A complete source without an upload path. *)
Definition agent_without_path : IAgentRuntime :=
  {| getSetting := fun k =>
       if String.eqb k "AWS_S3_UPLOAD_PATH" then None
       else Sample.lookup (Sample.settings "") k |}.

(** The file exists but cannot be read. *)
Definition unreadable : World :=
  {| existsSync := existsSync Sample.calm;
     readFileSync := fun _ =>
       inl (ErrorExn "EISDIR: illegal operation on a directory, read");
     Date_now := Date_now Sample.calm;
     process_env := process_env Sample.calm;
     s3_send := s3_send Sample.calm;
     getSignedUrl := getSignedUrl Sample.calm |}.

(** Later than [Sample.calm]. *)
Definition later : World :=
  {| existsSync := existsSync Sample.calm;
     readFileSync := readFileSync Sample.calm;
     Date_now := 1700000005000;
     process_env := process_env Sample.calm;
     s3_send := s3_send Sample.calm;
     getSignedUrl := getSignedUrl Sample.calm |}.

(** A host whose directory exists and whose calls succeed; the join puts
    a slash between its arguments and the decoder is the identity. *)
Definition plain_host : Host :=
  {| cwd := "/srv/agent";
     join := fun a b => a +:+ "/" +:+ b;
     from_base64 := fun s => s;
     dir_exists := fun _ => true;
     mkdirSync := fun _ => inr tt;
     writeFileSync := fun _ _ => inr tt;
     fetch := fun _ =>
       inr {| ok := false; statusText := "Not Found";
              arrayBuffer := inr "" |} |}.

(** A host without the image directory, on a read-only file system. *)
Definition readonly_host : Host :=
  {| cwd := cwd plain_host;
     join := join plain_host;
     from_base64 := from_base64 plain_host;
     dir_exists := fun _ => false;
     mkdirSync := fun _ =>
       inl (ErrorExn "EROFS: read-only file system, mkdir");
     writeFileSync := writeFileSync plain_host;
     fetch := fetch plain_host |}.

End More.

(* ===================================================================== *)
(** ** Slashes *)
(* ===================================================================== *)

Import Js AwsS3.

Lemma starts_with_slash_replace (s : string) :
  starts_with_slash (replace_slashes s) = starts_with_slash s.
Proof.
  induction s as [|c r IH]; simpl; [reflexivity|].
  destruct (Ascii.eqb c slash) eqn:Hc.
  - destruct (starts_with_slash r) eqn:Hr.
    + exact IH.
    + reflexivity.
  - simpl. exact Hc.
Qed.

Lemma replace_slashes_no_double (s : string) :
  has_double_slash (replace_slashes s) = false.
Proof.
  induction s as [|c r IH]; simpl; [reflexivity|].
  destruct (Ascii.eqb c slash) eqn:Hc.
  - destruct (starts_with_slash r) eqn:Hr; [exact IH|].
    simpl. rewrite starts_with_slash_replace, Hr, IH. reflexivity.
  - simpl. rewrite Hc, IH. reflexivity.
Qed.

Lemma starts_with_slash_replace_app (a b : string) :
  starts_with_slash (replace_slashes a +:+ b) = starts_with_slash (a +:+ b).
Proof.
  induction a as [|c r IH]; [reflexivity|].
  simpl. destruct (Ascii.eqb c slash) eqn:Hc.
  - destruct (starts_with_slash r) eqn:Hr; [|reflexivity].
    rewrite IH. destruct r; [discriminate | exact Hr].
  - simpl. exact Hc.
Qed.

(** Collapsing a prefix first changes nothing: one final pass suffices. *)
Lemma replace_slashes_app (a b : string) :
  replace_slashes (replace_slashes a +:+ b) = replace_slashes (a +:+ b).
Proof.
  induction a as [|c r IH]; [reflexivity|].
  simpl. destruct (Ascii.eqb c slash) eqn:Hc.
  - destruct (starts_with_slash r) eqn:Hr.
    + assert (Hrb : starts_with_slash (r +:+ b) = true)
        by (destruct r; [discriminate | exact Hr]).
      rewrite Hrb. exact IH.
    + simpl. rewrite starts_with_slash_replace_app, IH. reflexivity.
  - simpl. rewrite Hc, IH. reflexivity.
Qed.

Lemma replace_slashes_id (s : string) :
  has_double_slash s = false -> replace_slashes s = s.
Proof.
  induction s as [|c r IH]; simpl; [reflexivity|].
  intros H. apply orb_false_iff in H as [H1 H2].
  destruct (Ascii.eqb c slash) eqn:Hc.
  - simpl in H1. rewrite H1, (IH H2).
    apply Ascii.eqb_eq in Hc. subst c. reflexivity.
  - rewrite (IH H2). reflexivity.
Qed.

Lemma replaceAll_slash2_step (c c' : ascii) (r : string) :
  replaceAll_slash2 (String c (String c' r))
  = if (Ascii.eqb c slash && Ascii.eqb c' slash)%bool
    then String slash (replaceAll_slash2 r)
    else String c (replaceAll_slash2 (String c' r)).
Proof. reflexivity. Qed.

Lemma replace_slashes_step (c : ascii) (r : string) :
  replace_slashes (String c r)
  = if Ascii.eqb c slash
    then (if starts_with_slash r then replace_slashes r
          else String slash (replace_slashes r))
    else String c (replace_slashes r).
Proof. reflexivity. Qed.

(** On a string without three slashes in a row the two replacements
    agree; the difference shows from the third slash on. *)
Lemma replaceAll_slash2_short_runs (s : string) :
  has_triple_slash s = false -> replaceAll_slash2 s = replace_slashes s.
Proof.
  assert (Hlen : forall n s, (String.length s <= n)%nat ->
            has_triple_slash s = false ->
            replaceAll_slash2 s = replace_slashes s).
  { clear s. induction n as [|n IH]; intros s Hn Hs.
    - destruct s; [reflexivity | simpl in Hn; lia].
    - destruct s as [|c [|c' r]]; [reflexivity | |].
      + simpl. destruct (Ascii.eqb c slash) eqn:Hc; [|reflexivity].
        apply Ascii.eqb_eq in Hc. subst c. reflexivity.
      + change (has_triple_slash (String c (String c' r)))
          with ((Ascii.eqb c slash && Ascii.eqb c' slash
                 && starts_with_slash r)
                || has_triple_slash (String c' r))%bool in Hs.
        apply orb_false_iff in Hs as [Hrun Hrest].
        assert (Hshort : (String.length (String c' r) <= n)%nat)
          by (simpl in *; lia).
        rewrite replaceAll_slash2_step, (replace_slashes_step c).
        cbn [starts_with_slash].
        destruct (Ascii.eqb c slash) eqn:Hc;
          destruct (Ascii.eqb c' slash) eqn:Hc'; cbn [andb] in Hrun |- *.
        * rewrite replace_slashes_step, Hc', Hrun.
          rewrite (IH r); [reflexivity | simpl in *; lia |].
          change (has_triple_slash (String c' r))
            with ((Ascii.eqb c' slash && starts_with_slash r
                   && match r with
                      | String _ r' => starts_with_slash r'
                      | EmptyString => false
                      end)
                  || has_triple_slash r)%bool in Hrest.
          apply orb_false_iff in Hrest as [_ Hrest]. exact Hrest.
        * apply Ascii.eqb_eq in Hc. subst c.
          rewrite (IH _ Hshort Hrest). reflexivity.
        * rewrite (IH _ Hshort Hrest). reflexivity.
        * rewrite (IH _ Hshort Hrest). reflexivity. }
  apply (Hlen (String.length s)). lia.
Qed.

Lemma append_cons (x : ascii) (a b : string) :
  String x a +:+ b = String x (a +:+ b).
Proof. reflexivity. Qed.

Lemma append_assoc (a b c : string) : (a +:+ b) +:+ c = a +:+ (b +:+ c).
Proof.
  induction a as [|x a IH]; [reflexivity|].
  rewrite !append_cons, IH. reflexivity.
Qed.

(** The two passes of [uploadJson] amount to one pass over the whole
    concatenation. *)
Lemma json_key_collapses (w : World) (prefix fileName subDirectory : option string) :
  json_key w prefix fileName subDirectory
  = replace_slashes
      (Spec.raw_json_path prefix subDirectory
         (or_else fileName (pretty (Date_now w) +:+ ".json"))).
Proof.
  unfold json_key, Spec.raw_json_path.
  destruct (falsy subDirectory); simpl negb; cbv iota.
  - reflexivity.
  - rewrite replace_slashes_app, !append_assoc. reflexivity.
Qed.

Lemma json_key_no_double_slash (w : World)
    (prefix fileName subDirectory : option string) :
  has_double_slash (json_key w prefix fileName subDirectory) = false.
Proof. unfold json_key. apply replace_slashes_no_double. Qed.

(* ===================================================================== *)
(** ** Content types *)
(* ===================================================================== *)

Lemma contentTypes_lookup (ext : string) :
  contentTypes !! ext
  = if String.eqb ext ".png" then Some "image/png"
    else if String.eqb ext ".jpg" then Some "image/jpeg"
    else if String.eqb ext ".jpeg" then Some "image/jpeg"
    else if String.eqb ext ".gif" then Some "image/gif"
    else if String.eqb ext ".webp" then Some "image/webp"
    else None.
Proof.
  unfold contentTypes. cbn [list_to_map foldr uncurry fst snd].
  repeat
    (rewrite lookup_insert; case_decide;
     [ subst ext; reflexivity
     | match goal with
       | Hk : _ <> ext |- _ =>
           apply not_eq_sym, eqb_neq in Hk; rewrite Hk; clear Hk
       end ]).
  apply lookup_empty.
Qed.

Lemma getContentType_table (filePath : string) :
  getContentType filePath
  = Spec.table_type (toLowerCase (Path.extname filePath)).
Proof.
  unfold getContentType, Spec.table_type.
  rewrite contentTypes_lookup.
  repeat (destruct (String.eqb _ _); [reflexivity|]).
  reflexivity.
Qed.

(* ===================================================================== *)
(** ** The frame: what a call leaves untouched *)
(* ===================================================================== *)

Section Frame.
Context {A B : Type}.

Lemma keeps_ret (a : A) : Spec.keeps_this (ret a).
Proof. intros h. reflexivity. Qed.

Lemma keeps_throw (e : exn) : Spec.keeps_this (@throw A e).
Proof. intros h. reflexivity. Qed.

Lemma keeps_answer (r : exn + A) : Spec.keeps_this (answer r).
Proof. destruct r; intros h; reflexivity. Qed.

Lemma keeps_bind (m : M A) (k : A -> M B) :
  Spec.keeps_this m -> (forall a, Spec.keeps_this (k a)) ->
  Spec.keeps_this (bind m k).
Proof.
  intros Hm Hk h. unfold bind. specialize (Hm h).
  destruct (m h) as [[a|e] h1]; simpl in *.
  - rewrite Hk. exact Hm.
  - exact Hm.
Qed.

Lemma keeps_try_catch (m : M A) (handler : exn -> M A) :
  Spec.keeps_this m -> (forall e, Spec.keeps_this (handler e)) ->
  Spec.keeps_this (try_catch m handler).
Proof.
  intros Hm Hk h. unfold try_catch. specialize (Hm h).
  destruct (m h) as [[a|e] h1]; simpl in *.
  - exact Hm.
  - rewrite Hk. exact Hm.
Qed.

End Frame.

Lemma keeps_get_this : Spec.keeps_this get_this.
Proof. intros h. reflexivity. Qed.

Lemma keeps_emit (e : event) : Spec.keeps_this (emit e).
Proof. intros h. reflexivity. Qed.

Create HintDb frame.
#[export] Hint Resolve keeps_ret keeps_throw keeps_answer keeps_get_this
  keeps_emit : frame.

Ltac frame :=
  repeat
    match goal with
    | |- Spec.keeps_this (bind _ _) => apply keeps_bind; [|intros ?]
    | |- Spec.keeps_this (try_catch _ _) =>
        apply keeps_try_catch; [|intros ?]
    | |- Spec.keeps_this (if ?b then _ else _) => destruct b
    | |- Spec.keeps_this (match ?x with _ => _ end) => destruct x
    | |- Spec.keeps_this _ => solve [auto with frame]
    end.

Lemma keeps_send (w : World) (cmd : PutObjectCommand) :
  Spec.keeps_this (send w cmd).
Proof. unfold send. frame. Qed.

Lemma keeps_presign (w : World) (fileName : string) (expiresIn : Z) :
  Spec.keeps_this (presign w fileName expiresIn).
Proof. unfold presign. frame. Qed.

Lemma keeps_public_url (w : World) (fileName : string) :
  Spec.keeps_this (public_url w fileName).
Proof. unfold public_url. frame. Qed.

#[export] Hint Resolve keeps_send keeps_presign keeps_public_url : frame.

Lemma keeps_uploadFile (w : World) (filePath : string)
    (useSignedUrl : option bool) (expiresIn : option Z) :
  Spec.keeps_this (uploadFile w filePath useSignedUrl expiresIn).
Proof. unfold uploadFile, uploadFile_try. frame. Qed.

Lemma keeps_uploadJson (w : World) (jsonData : value)
    (fileName subDirectory : option string) (useSignedUrl : option bool)
    (expiresIn : option Z) :
  Spec.keeps_this
    (uploadJson w jsonData fileName subDirectory useSignedUrl expiresIn).
Proof. unfold uploadJson, uploadJson_try. frame. Qed.

Lemma keeps_generateSignedUrl (w : World) (fileName : string)
    (expiresIn : option Z) :
  Spec.keeps_this (generateSignedUrl w fileName expiresIn).
Proof. unfold generateSignedUrl. frame. Qed.

(** [initialize] is the one operation that writes the fields. *)
Lemma initialize_writes_this :
  this (snd (initialize Sample.agent Sample.empty_heap))
  <> this Sample.empty_heap.
Proof. vm_compute. discriminate. Qed.

(** C9. No call of uploadFile, uploadJson or generateSignedUrl changes
    the stored configuration: the fields s3Client, bucket, fileUploadPath
    and runtime of the instance are the same after the call as before it,
    whether the call succeeds, reports a failure or throws. *)
Theorem configuration_is_read_only (w : World) (h : Heap) :
  (forall filePath useSignedUrl expiresIn,
      this (snd (uploadFile w filePath useSignedUrl expiresIn h)) = this h)
  /\ (forall jsonData fileName subDirectory useSignedUrl expiresIn,
        this (snd (uploadJson w jsonData fileName subDirectory
                     useSignedUrl expiresIn h)) = this h)
  /\ (forall fileName expiresIn,
        this (snd (generateSignedUrl w fileName expiresIn h)) = this h).
Proof.
  repeat split; intros.
  - apply keeps_uploadFile.
  - apply keeps_uploadJson.
  - apply keeps_generateSignedUrl.
Qed.

(* ===================================================================== *)
(** ** Input validation *)
(* ===================================================================== *)

(** C5. When the path names no existing file ([fs.existsSync] answers
    false), uploadFile returns the failure result with error
    "File does not exist"; it does not throw, and the heap, hence the list
    of backend calls, is exactly what it was. *)
Theorem uploadFile_missing_file (w : World) (h : Heap) (filePath : string)
    (useSignedUrl : option bool) (expiresIn : option Z) :
  existsSync w filePath = false ->
  uploadFile w filePath useSignedUrl expiresIn h
  = (Normal (failure "File does not exist"), h).
Proof.
  intros Hmissing. unfold uploadFile, uploadFile_try, try_catch.
  rewrite Hmissing. reflexivity.
Qed.

Lemma uploadFile_missing_file_witness :
  uploadFile Sample.calm "no/such/file.png" None None Sample.ready
  = (Normal (failure "File does not exist"), Sample.ready).
Proof. apply uploadFile_missing_file. reflexivity. Defined.

(** The values ToBoolean sends to false. *)
Lemma ToBoolean_false_iff (v : value) :
  ToBoolean v = false <->
  In v [VUndefined; VNull; VBool false; VNumber NaN; VNumber NegZero;
        VNumber (Int 0); VString ""].
Proof.
  split.
  - destruct v as [| |[]|[| | |z]|[|c s]| |]; simpl; try discriminate; auto 10.
    intros Hz. apply negb_false_iff, Z.eqb_eq in Hz. subst z. auto 10.
  - simpl. intros H; repeat destruct H as [H|H]; subst; try reflexivity.
    destruct H.
Qed.

Lemma uploadJson_guard (w : World) (h : Heap) (jsonData : value)
    (fileName subDirectory : option string) (useSignedUrl : option bool)
    (expiresIn : option Z) :
  ToBoolean jsonData = false ->
  uploadJson w jsonData fileName subDirectory useSignedUrl expiresIn h
  = (Normal (Spec.rejected "JSON data is required"), h).
Proof.
  intros Hfalsy. unfold uploadJson, uploadJson_try, try_catch.
  rewrite Hfalsy. reflexivity.
Qed.

(** C7. uploadJson called with null, or with undefined, returns the
    failure result with error "JSON data is required" and leaves the heap
    as it was: no backend call is issued. *)
Theorem uploadJson_null_or_undefined (w : World) (h : Heap)
    (fileName subDirectory : option string) (useSignedUrl : option bool)
    (expiresIn : option Z) :
  uploadJson w VNull fileName subDirectory useSignedUrl expiresIn h
  = (Normal (Spec.rejected "JSON data is required"), h)
  /\ uploadJson w VUndefined fileName subDirectory useSignedUrl expiresIn h
     = (Normal (Spec.rejected "JSON data is required"), h).
Proof. split; apply uploadJson_guard; reflexivity. Qed.

(** C10. uploadJson rejects every falsy jsonData: whenever ToBoolean of
    the argument is false (null, undefined, false, 0, -0, NaN, the empty
    string) it returns the failure result with error
    "JSON data is required" and issues no backend call. *)
Theorem uploadJson_rejects_falsy (w : World) (h : Heap) (jsonData : value)
    (fileName subDirectory : option string) (useSignedUrl : option bool)
    (expiresIn : option Z) :
  ToBoolean jsonData = false ->
  uploadJson w jsonData fileName subDirectory useSignedUrl expiresIn h
  = (Normal (Spec.rejected "JSON data is required"), h)
  /\ log (snd (uploadJson w jsonData fileName subDirectory useSignedUrl
                 expiresIn h)) = log h.
Proof.
  intros Hfalsy. rewrite (uploadJson_guard w h _ _ _ _ _ Hfalsy).
  split; reflexivity.
Qed.

Lemma uploadJson_rejects_falsy_witness :
  Forall
    (fun v =>
       uploadJson Sample.calm v (Some "data.json") None None None Sample.ready
       = (Normal (Spec.rejected "JSON data is required"), Sample.ready))
    [VNumber (Int 0); VBool false; VNumber NaN; VString ""].
Proof.
  pose proof
    (fun v H =>
       proj1 (uploadJson_rejects_falsy Sample.calm Sample.ready v
                (Some "data.json") None None None H)) as R.
  repeat (apply Forall_cons_2; [apply R; reflexivity|]).
  apply Forall_nil_2.
Defined.

(* ===================================================================== *)
(** ** Running the two uploads *)
(* ===================================================================== *)

Lemma public_url_run (w : World) (h : Heap) (k : string) :
  public_url w k h
  = (Normal (Spec.address (template (bucket (this h)))
               (template (process_env w "AWS_REGION")) k), h).
Proof. reflexivity. Qed.


Ltac run_call :=
  unfold send, presign, public_url, emit, answer, get_this, bind, ret,
    throw, Spec.after_put, Spec.logged, Spec.get_cmd, Spec.succeeded;
  simpl.

Lemma uploadFile_try_run (w : World) (h : Heap) (filePath : string)
    (useSignedUrl : bool) (expiresIn : Z) (content : string) (c : S3Client) :
  existsSync w filePath = true ->
  readFileSync w filePath = inr content ->
  s3Client (this h) = Some c ->
  uploadFile_try w filePath useSignedUrl expiresIn h
  = let cmd := Spec.file_put w (this h) filePath content in
    let h1 := Spec.logged h (Send c cmd) in
    match s3_send w c cmd with
    | inl e => (Throw e, h1)
    | inr _ =>
        match Spec.after_put w h c (Key cmd) useSignedUrl expiresIn h1 with
        | (Normal u, h2) => (Normal (Spec.succeeded u), h2)
        | (Throw e, h2) => (Throw e, h2)
        end
    end.
Proof.
  intros Hex Hread Hc. unfold uploadFile_try. rewrite Hex. cbn [negb].
  run_call. rewrite Hread. simpl. rewrite Hc. simpl.
  unfold Spec.file_put. simpl.
  destruct (s3_send w c _) as [e|[]]; [reflexivity|].
  destruct useSignedUrl; simpl; [|reflexivity].
  rewrite Hc. destruct (getSignedUrl w _ _ _); reflexivity.
Qed.

Lemma uploadJson_try_run (w : World) (h : Heap) (jsonData : value)
    (fileName subDirectory : option string) (useSignedUrl : bool)
    (expiresIn : Z) (c : S3Client) :
  ToBoolean jsonData = true ->
  s3Client (this h) = Some c ->
  uploadJson_try w jsonData fileName subDirectory useSignedUrl expiresIn h
  = let cmd := Spec.json_put w (this h) jsonData fileName subDirectory in
    let h1 := Spec.logged h (Send c cmd) in
    match s3_send w c cmd with
    | inl e => (Throw e, h1)
    | inr _ =>
        match Spec.after_put w h c (Key cmd) useSignedUrl expiresIn h1 with
        | (Normal u, h2) =>
            (Normal {| upload := Spec.succeeded u; key := Some (Key cmd) |},
             h2)
        | (Throw e, h2) => (Throw e, h2)
        end
    end.
Proof.
  intros Htruthy Hc. unfold uploadJson_try. rewrite Htruthy. cbn [negb].
  run_call. rewrite Hc. simpl.
  unfold Spec.json_put. simpl.
  destruct (s3_send w c _) as [e|[]]; [reflexivity|].
  destruct useSignedUrl; simpl; [|reflexivity].
  rewrite Hc. destruct (getSignedUrl w _ _ _); reflexivity.
Qed.

(** Without a client the request is never issued: reading [send] off
    [undefined] throws inside the [try] block. *)
Lemma uploadJson_try_uninitialised (w : World) (h : Heap) (jsonData : value)
    (fileName subDirectory : option string) (useSignedUrl : bool)
    (expiresIn : Z) :
  ToBoolean jsonData = true ->
  s3Client (this h) = None ->
  exists m,
    uploadJson_try w jsonData fileName subDirectory useSignedUrl expiresIn h
    = (Throw (ErrorExn m), h).
Proof.
  intros Htruthy Hc. unfold uploadJson_try. rewrite Htruthy. cbn [negb].
  run_call. rewrite Hc. eauto.
Qed.

Lemma uploadFile_never_throws (w : World) (filePath : string)
    (useSignedUrl : option bool) (expiresIn : option Z) :
  Spec.never_throws (uploadFile w filePath useSignedUrl expiresIn).
Proof.
  intros h. unfold uploadFile, try_catch.
  destruct (uploadFile_try _ _ _ _ _) as [[r|e] h1]; simpl; eauto.
Qed.

Lemma uploadJson_never_throws (w : World) (jsonData : value)
    (fileName subDirectory : option string) (useSignedUrl : option bool)
    (expiresIn : option Z) :
  Spec.never_throws
    (uploadJson w jsonData fileName subDirectory useSignedUrl expiresIn).
Proof.
  intros h. unfold uploadJson, try_catch.
  destruct (uploadJson_try _ _ _ _ _ _ _) as [[r|e] h1]; simpl; eauto.
Qed.

Lemma file_fault_throws (w : World) (h : Heap) (filePath : string)
    (useSignedUrl : bool) (expiresIn : Z) (e : exn) :
  existsSync w filePath = true ->
  Spec.file_fault w h filePath useSignedUrl expiresIn e ->
  fst (uploadFile_try w filePath useSignedUrl expiresIn h) = Throw e.
Proof.
  intros Hex [Hread | content c Hread Hc Hsend
                    | content c Hread Hc Hsend Hsigned Hsign].
  - unfold uploadFile_try. rewrite Hex. cbn [negb]. run_call.
    rewrite Hread. reflexivity.
  - rewrite (uploadFile_try_run w h _ _ _ content c Hex Hread Hc).
    cbv zeta. rewrite Hsend. reflexivity.
  - rewrite (uploadFile_try_run w h _ _ _ content c Hex Hread Hc).
    cbv zeta. rewrite Hsend. subst useSignedUrl.
    unfold Spec.after_put. simpl. unfold Spec.file_put in *. simpl.
    rewrite Hsign. reflexivity.
Qed.

Lemma json_fault_throws (w : World) (h : Heap) (jsonData : value)
    (fileName subDirectory : option string) (useSignedUrl : bool)
    (expiresIn : Z) (e : exn) :
  ToBoolean jsonData = true ->
  Spec.json_fault w h jsonData fileName subDirectory useSignedUrl expiresIn e ->
  fst (uploadJson_try w jsonData fileName subDirectory useSignedUrl
         expiresIn h) = Throw e.
Proof.
  intros Htruthy [c Hc Hsend | c Hc Hsend Hsigned Hsign];
    rewrite (uploadJson_try_run w h _ _ _ _ _ c Htruthy Hc);
    cbv zeta; rewrite Hsend; [reflexivity|].
  subst useSignedUrl. unfold Spec.after_put. simpl.
  unfold Spec.json_put in *. simpl. rewrite Hsign. reflexivity.
Qed.

(* ===================================================================== *)
(** ** Errors raised by the outside world *)
(* ===================================================================== *)

(** generateSignedUrl has no handler of its own: its completion is the
    answer of the signer, exception included. *)
Lemma generateSignedUrl_run (w : World) (h : Heap) (fileName : string)
    (expiresIn : option Z) :
  fst (generateSignedUrl w fileName expiresIn h)
  = match getSignedUrl w (s3Client (this h))
            (Spec.get_cmd (this h) fileName) (default 900 expiresIn) with
    | inl e => Throw e
    | inr u => Normal u
    end.
Proof.
  unfold generateSignedUrl. run_call.
  destruct (getSignedUrl w _ _ _); reflexivity.
Qed.

(** C3, as the claim states it, fails for generateSignedUrl: when the
    signer refuses, the exception leaves the component. *)
Lemma generateSignedUrl_lets_errors_escape :
  fst (generateSignedUrl Sample.refusing "uploads/photo.png" None Sample.ready)
  = Throw (ErrorExn "Access Denied")
  /\ ~ Spec.never_throws
         (generateSignedUrl Sample.refusing "uploads/photo.png" None).
Proof.
  split; [reflexivity|].
  intros Hnever. destruct (Hnever Sample.ready) as [u Hu].
  vm_compute in Hu. discriminate.
Qed.

(** C3, amended. uploadFile and uploadJson never throw; an exception
    raised by reading the file, by the storage request or by the signer
    during one of them is turned into the failure result whose error is
    [error_text] of the exception, which for an Error is its message.
    generateSignedUrl, which returns a bare string, passes the signer's
    exception on to its caller. *)
Theorem upload_errors_are_reported (w : World) (h : Heap) :
  (forall filePath useSignedUrl expiresIn,
      exists r, fst (uploadFile w filePath useSignedUrl expiresIn h) = Normal r)
  /\ (forall jsonData fileName subDirectory useSignedUrl expiresIn,
        exists r,
          fst (uploadJson w jsonData fileName subDirectory useSignedUrl
                 expiresIn h) = Normal r)
  /\ (forall filePath useSignedUrl expiresIn e,
        existsSync w filePath = true ->
        Spec.file_fault w h filePath (default false useSignedUrl)
          (default 900 expiresIn) e ->
        fst (uploadFile w filePath useSignedUrl expiresIn h)
        = Normal (failure (error_text e)))
  /\ (forall jsonData fileName subDirectory useSignedUrl expiresIn e,
        ToBoolean jsonData = true ->
        Spec.json_fault w h jsonData fileName subDirectory
          (default false useSignedUrl) (default 900 expiresIn) e ->
        fst (uploadJson w jsonData fileName subDirectory useSignedUrl
               expiresIn h)
        = Normal (Spec.rejected (error_text e)))
  /\ (forall message, error_text (ErrorExn message) = message)
  /\ (forall fileName expiresIn e,
        getSignedUrl w (s3Client (this h)) (Spec.get_cmd (this h) fileName)
          (default 900 expiresIn) = inl e ->
        fst (generateSignedUrl w fileName expiresIn h) = Throw e).
Proof.
  repeat split.
  - intros. apply uploadFile_never_throws.
  - intros. apply uploadJson_never_throws.
  - intros filePath useSignedUrl expiresIn e Hex Hfault.
    pose proof (file_fault_throws w h _ _ _ e Hex Hfault) as Hthrow.
    unfold uploadFile, try_catch.
    destruct (uploadFile_try _ _ _ _ _) as [[r|e'] h1]; simpl in *;
      [discriminate|].
    injection Hthrow as ->. reflexivity.
  - intros jsonData fileName subDirectory useSignedUrl expiresIn e Ht Hfault.
    pose proof (json_fault_throws w h _ _ _ _ _ e Ht Hfault) as Hthrow.
    unfold uploadJson, try_catch.
    destruct (uploadJson_try _ _ _ _ _ _ _) as [[r|e'] h1]; simpl in *;
      [discriminate|].
    injection Hthrow as ->. reflexivity.
  - intros fileName expiresIn e Hsign.
    rewrite generateSignedUrl_run, Hsign. reflexivity.
Qed.

Lemma upload_errors_are_reported_witness :
  fst (uploadFile Sample.refusing "a/b/photo.PNG" None None Sample.ready)
  = Normal (failure "Access Denied")
  /\ fst (uploadJson Sample.refusing (VObject [("a", VNumber (Int 1))])
            None None (Some true) None Sample.ready)
     = Normal (Spec.rejected "Access Denied").
Proof.
  pose proof (upload_errors_are_reported Sample.refusing Sample.ready)
    as (_ & _ & Hfile & Hjson & _).
  split.
  - apply (Hfile "a/b/photo.PNG" None None (ErrorExn "Access Denied"));
      [reflexivity|].
    apply (Spec.send_fault _ _ _ _ _ _ "PNGDATA" Sample.client);
      reflexivity.
  - apply (Hjson _ None None (Some true) None (ErrorExn "Access Denied"));
      [reflexivity|].
    apply (Spec.json_send_fault _ _ _ _ _ _ _ _ Sample.client); reflexivity.
Defined.

(* ===================================================================== *)
(** ** initialize *)
(* ===================================================================== *)

Lemma present_truthy (rt : IAgentRuntime) (k : string) :
  Spec.present rt k <-> falsy (getSetting rt k) = false.
Proof.
  unfold Spec.present. split.
  - intros (s & -> & Hs). destruct s; [contradiction | reflexivity].
  - destruct (getSetting rt k) as [[|c s]|]; try discriminate.
    intros _. eexists. split; [reflexivity | discriminate].
Qed.

Lemma truthy_template (x : option string) :
  falsy x = false -> x = Some (template x).
Proof. destruct x as [[|]|]; try discriminate. reflexivity. Qed.

Lemma all_present_truthy (rt : IAgentRuntime) :
  Forall (Spec.present rt) Spec.required <->
  falsy (getSetting rt "AWS_ACCESS_KEY_ID")
  || falsy (getSetting rt "AWS_SECRET_ACCESS_KEY")
  || falsy (getSetting rt "AWS_REGION")
  || falsy (getSetting rt "AWS_S3_BUCKET") = false.
Proof.
  unfold Spec.required.
  rewrite !Forall_cons, Forall_nil, !present_truthy, !orb_false_iff.
  tauto.
Qed.

(** C4. initialize completes normally exactly when the four settings
    AWS_ACCESS_KEY_ID, AWS_SECRET_ACCESS_KEY, AWS_REGION and AWS_S3_BUCKET
    are all present and non-empty. It then holds a client bound to that
    region and those credentials, the bucket, the upload path (empty when
    the setting is absent) and the runtime. When one of the four is
    missing or empty it throws. *)
Theorem initialize_needs_all_credentials (rt : IAgentRuntime) (h : Heap) :
  (Forall (Spec.present rt) Spec.required <->
   fst (initialize rt h) = Normal tt)
  /\ (Forall (Spec.present rt) Spec.required ->
      exists a s r b,
        getSetting rt "AWS_ACCESS_KEY_ID" = Some a
        /\ getSetting rt "AWS_SECRET_ACCESS_KEY" = Some s
        /\ getSetting rt "AWS_REGION" = Some r
        /\ getSetting rt "AWS_S3_BUCKET" = Some b
        /\ snd (initialize rt h)
           = {| this :=
                  {| s3Client := Some {| region := r; accessKeyId := a;
                                         secretAccessKey := s |};
                     bucket := Some b;
                     fileUploadPath :=
                       Some (nullish (getSetting rt "AWS_S3_UPLOAD_PATH") "");
                     runtime := Some rt |};
                log := log h |})
  /\ (~ Forall (Spec.present rt) Spec.required ->
      fst (initialize rt h) = Throw missing_credentials).
Proof.
  rewrite all_present_truthy.
  unfold initialize, bind, set_this, throw. simpl.
  destruct (falsy (getSetting rt "AWS_ACCESS_KEY_ID")) eqn:Ha;
  destruct (falsy (getSetting rt "AWS_SECRET_ACCESS_KEY")) eqn:Hs;
  destruct (falsy (getSetting rt "AWS_REGION")) eqn:Hr;
  destruct (falsy (getSetting rt "AWS_S3_BUCKET")) eqn:Hb; simpl;
    (split; [split; intros; congruence|]);
    (split; [|intros; congruence]); try discriminate.
  intros _.
  exists (template (getSetting rt "AWS_ACCESS_KEY_ID")),
    (template (getSetting rt "AWS_SECRET_ACCESS_KEY")),
    (template (getSetting rt "AWS_REGION")),
    (template (getSetting rt "AWS_S3_BUCKET")).
  rewrite <- !truthy_template by assumption.
  repeat split; reflexivity.
Qed.

Lemma initialize_needs_all_credentials_witness :
  snd (initialize Sample.agent Sample.empty_heap) = Sample.ready
  /\ fst (initialize Sample.agent_without_bucket Sample.empty_heap)
     = Throw missing_credentials.
Proof.
  split.
  - destruct (proj1 (proj2 (initialize_needs_all_credentials
                              Sample.agent Sample.empty_heap)))
      as (a & s & r & b & Ha & Hs & Hr & Hb & Hheap).
    + unfold Spec.required.
      repeat (apply Forall_cons_2;
              [eexists; split; [reflexivity | discriminate]|]).
      apply Forall_nil_2.
    + rewrite Hheap.
      injection Ha as <-. injection Hs as <-.
      injection Hr as <-. injection Hb as <-. reflexivity.
  - apply (proj2 (proj2 (initialize_needs_all_credentials
                           Sample.agent_without_bucket Sample.empty_heap))).
    intros Hall. unfold Spec.required in Hall.
    rewrite !Forall_cons in Hall.
    destruct Hall as (_ & _ & _ & (s & Hs & Hne) & _).
    injection Hs as <-. contradiction.
Defined.

(* ===================================================================== *)
(** ** Keys and addresses *)
(* ===================================================================== *)

(** The address of an unsigned upload: bucket of the instance, region of
    the process environment. *)
Lemma uploadFile_public_address (w : World) (h : Heap) (filePath : string)
    (expiresIn : option Z) (content : string) (c : S3Client) :
  existsSync w filePath = true ->
  readFileSync w filePath = inr content ->
  s3Client (this h) = Some c ->
  s3_send w c (Spec.file_put w (this h) filePath content) = inr tt ->
  fst (uploadFile w filePath (Some false) expiresIn h)
  = Normal (Spec.succeeded
              (Spec.address (template (bucket (this h)))
                 (template (process_env w "AWS_REGION"))
                 (file_key w (fileUploadPath (this h)) filePath))).
Proof.
  intros Hex Hread Hc Hsend. unfold uploadFile, try_catch. simpl default.
  rewrite (uploadFile_try_run w h _ _ _ content c Hex Hread Hc).
  cbv zeta. rewrite Hsend. reflexivity.
Qed.

(** C1 at its failing input. The agent supplies the region eu-west-1 and
    the client is bound to it, but the process environment has no
    AWS_REGION: the address returned by uploadFile and by uploadJson names
    the region "undefined" and is not the address of the stored object. *)
Theorem public_url_takes_region_from_process_env :
  let h := snd (initialize Sample.agent Sample.empty_heap) in
  option_map region (s3Client (this h)) = Some "eu-west-1"
  /\ bucket (this h) = Some "my-bucket"
  /\ fst (uploadFile Sample.calm "a/b/photo.PNG" (Some false) None h)
     = Normal (Spec.succeeded
         "https://my-bucket.s3.undefined.amazonaws.com/uploads/1700000000000-photo.PNG")
  /\ fst (uploadJson Sample.calm (VObject [("a", VNumber (Int 1))])
            (Some "data.json") None (Some false) None h)
     = Normal {| upload := Spec.succeeded
                   "https://my-bucket.s3.undefined.amazonaws.com/uploads/data.json";
                 key := Some "uploads/data.json" |}
  /\ Spec.address "my-bucket" "eu-west-1" "uploads/data.json"
     <> "https://my-bucket.s3.undefined.amazonaws.com/uploads/data.json".
Proof.
  cbv zeta. repeat split; try (vm_compute; reflexivity).
  vm_compute. discriminate.
Qed.

(** The example of the documentation: one slash too many is removed. *)
Lemma file_key_single_pair :
  file_key Sample.calm (Some "uploads/") "x.png"
  = "uploads/1700000000000-x.png".
Proof. reflexivity. Qed.

(** C2 at its failing input. With the upload path "uploads//" the raw
    path has three slashes in a row; [replaceAll('//', '/')] leaves two of
    them in the key uploadFile sends, where the pattern of uploadJson
    leaves one. *)
Theorem uploadFile_key_keeps_slash_pair :
  Spec.raw_file_path "uploads//" (Date_now Sample.calm) "a/b/photo.PNG"
  = "uploads///1700000000000-photo.PNG"
  /\ file_key Sample.calm (Some "uploads//") "a/b/photo.PNG"
     = "uploads//1700000000000-photo.PNG"
  /\ has_double_slash
       (file_key Sample.calm (Some "uploads//") "a/b/photo.PNG") = true
  /\ log (snd (uploadFile Sample.calm "a/b/photo.PNG" None None
                 Sample.ready_slashes))
     = [Send Sample.client
          {| Bucket := Some "my-bucket";
             Key := "uploads//1700000000000-photo.PNG";
             Body := FileBytes "PNGDATA"; ContentType := "image/png" |}]
  /\ json_key Sample.calm (Some "uploads//") (Some "photo.PNG") None
     = "uploads/photo.PNG".
Proof. repeat split; vm_compute; reflexivity. Qed.

(* ===================================================================== *)
(** ** uploadJson *)
(* ===================================================================== *)


Example stringify_object :
  JSON_stringify (VObject [("a", VNumber (Int 1))]) 2
  = Some ("{" +:+ str newline +:+ "  " +:+ str dquote +:+ "a" +:+ str dquote
          +:+ ": 1" +:+ str newline +:+ "}").
Proof. reflexivity. Qed.

Example stringify_nested :
  JSON_stringify
    (VObject [("n", VNull); ("skip", VUndefined);
              ("l", VArray [VBool true; VUndefined; VArray []])]) 0
  = Some ("{" +:+ str dquote +:+ "n" +:+ str dquote +:+ ":null,"
          +:+ str dquote +:+ "l" +:+ str dquote +:+ ":[true,null,[]]}").
Proof. reflexivity. Qed.

(** Integers print as Number::toString prints the number they stand
    for: in full up to 2^53, then with the fewest digits that still
    identify the double, and with an exponent from 1e21 on. *)
Example integers_in_json :
  List.map integer_to_json
    [0; -42; 9007199254740991; 9007199254740993; 2 ^ 60; 2 ^ 64;
     10 ^ 20; 10 ^ 21; - 10 ^ 21; 2 ^ 70; 10 ^ 23;
     123456789012345678901234567890; 2 ^ 1024]
  = ["0"; "-42"; "9007199254740991"; "9007199254740992";
     "1152921504606847000"; "18446744073709552000";
     "100000000000000000000"; "1e+21"; "-1e+21";
     "1.1805916207174113e+21"; "1e+23"; "1.2345678901234568e+29"; "null"].
Proof. vm_compute. reflexivity. Qed.

Lemma integer_to_json_exact (z : Z) :
  0 < z < 2 ^ 53 ->
  integer_to_json z = pretty z /\ integer_to_json (- z) = "-" +:+ pretty z.
Proof.
  intros [Hpos Hsafe]. unfold integer_to_json, positive_to_json.
  assert (Hdouble : nearest_double z = (z, 0)).
  { unfold nearest_double.
    destruct (Z.ltb_spec z (2 ^ 53)); [reflexivity | lia]. }
  rewrite Z.opp_involutive, Hdouble. cbn [snd].
  destruct (Z.eqb_spec z 0); [lia|].
  destruct (Z.eqb_spec (- z) 0); [lia|].
  destruct (Z.ltb_spec z 0); [lia|].
  destruct (Z.ltb_spec (- z) 0); [|lia].
  split; reflexivity.
Qed.

Example stringify_large_number :
  JSON_stringify (VArray [VNumber (Int (10 ^ 21)); VNumber (Int 7)]) 2
  = Some ("[" +:+ str newline +:+ "  1e+21," +:+ str newline +:+ "  7"
          +:+ str newline +:+ "]").
Proof. vm_compute. reflexivity. Qed.





(* ===================================================================== *)
(** ** Content type of an uploaded file *)
(* ===================================================================== *)

Lemma table_type_row (ext t : string) :
  In (ext, t) Spec.table -> Spec.table_type ext = t.
Proof.
  unfold Spec.table. simpl.
  intros H; repeat destruct H as [H|H]; inversion H; reflexivity.
Qed.

Lemma table_type_other (ext : string) :
  (forall t, ~ In (ext, t) Spec.table) ->
  Spec.table_type ext = "application/octet-stream".
Proof.
  intros Hnone. unfold Spec.table_type.
  repeat
    match goal with
    | |- context [String.eqb ext ?k] =>
        destruct (String.eqb_spec ext k) as [->|_];
        [exfalso; eapply Hnone; unfold Spec.table; simpl; eauto 10|]
    end.
  reflexivity.
Qed.

Lemma toLowerCase_idempotent (s : string) :
  toLowerCase (toLowerCase s) = toLowerCase s.
Proof.
  induction s as [|c r IH]; simpl; [reflexivity|].
  rewrite IH. f_equal.
  destruct c as [[] [] [] [] [] [] [] []]; reflexivity.
Qed.

(** C8. getContentType looks the lower-cased extension of the path up in
    the table .png, .jpg, .jpeg, .gif, .webp and answers
    application/octet-stream when the extension (possibly empty) is not a
    row of it; paths whose extensions differ only in letter case get the
    same type; and the request uploadFile sends carries that type. *)
Theorem content_type_follows_extension (w : World) (h : Heap)
    (filePath : string) (useSignedUrl : option bool) (expiresIn : option Z) :
  let ext := toLowerCase (Path.extname filePath) in
  (forall t, In (ext, t) Spec.table -> getContentType filePath = t)
  /\ ((forall t, ~ In (ext, t) Spec.table) ->
      getContentType filePath = "application/octet-stream")
  /\ (forall other,
        toLowerCase (Path.extname other) = ext ->
        getContentType other = getContentType filePath)
  /\ (forall content c,
        existsSync w filePath = true ->
        readFileSync w filePath = inr content ->
        s3Client (this h) = Some c ->
        exists cmd rest,
          log (snd (uploadFile w filePath useSignedUrl expiresIn h))
          = (log h ++ Send c cmd :: rest)%list
          /\ ContentType cmd = Spec.table_type ext).
Proof.
  intros ext. repeat split.
  - intros t Hrow. rewrite getContentType_table. apply table_type_row, Hrow.
  - intros Hnone. rewrite getContentType_table. apply table_type_other, Hnone.
  - intros other Hsame. rewrite !getContentType_table, Hsame. reflexivity.
  - intros content c Hex Hread Hc.
    exists (Spec.file_put w (this h) filePath content).
    unfold uploadFile, try_catch.
    rewrite (uploadFile_try_run w h _ _ _ content c Hex Hread Hc).
    cbv zeta. unfold Spec.after_put, Spec.logged. cbn [log this].
    assert (Htype : ContentType (Spec.file_put w (this h) filePath content)
                    = Spec.table_type ext)
      by (unfold Spec.file_put; simpl; apply getContentType_table).
    destruct (s3_send w c _) as [e|[]]; [exists []; split; [reflexivity|exact Htype]|].
    destruct (default false useSignedUrl);
      [|exists []; split; [reflexivity|exact Htype]].
    destruct (getSignedUrl w _ _ _); simpl; rewrite <- app_assoc;
      eexists; (split; [reflexivity|exact Htype]).
Qed.

Lemma content_type_follows_extension_witness :
  getContentType "a/b/photo.PNG" = "image/png"
  /\ getContentType "notes.xyz" = "application/octet-stream"
  /\ getContentType "Makefile" = "application/octet-stream"
  /\ getContentType "shot.JpEg" = getContentType "a/pic.jpeg".
Proof.
  pose proof (fun p =>
    content_type_follows_extension Sample.calm Sample.ready p None None)
    as T.
  split; [|split; [|split]].
  - apply (proj1 (T "a/b/photo.PNG")).
    vm_compute. left. reflexivity.
  - apply (proj1 (proj2 (T "notes.xyz"))).
    intros t Hrow. vm_compute in Hrow.
    repeat destruct Hrow as [Hrow|Hrow]; try discriminate. destruct Hrow.
  - apply (proj1 (proj2 (T "Makefile"))).
    intros t Hrow. vm_compute in Hrow.
    repeat destruct Hrow as [Hrow|Hrow]; try discriminate. destruct Hrow.
  - apply (proj1 (proj2 (proj2 (T "a/pic.jpeg")))).
    vm_compute. reflexivity.
Defined.

(* ===================================================================== *)
(** ** Further properties of the uploader *)
(* ===================================================================== *)

Import Index More.

(** X1. With useSignedUrl = true, an existing readable file, an
    initialised instance and a backend that accepts and signs, uploadFile
    issues exactly two calls in order: the PutObject request, then a
    signing request for the same bucket and key with the expiry asked for
    (900 seconds when omitted). The address returned is the signer's. *)
Theorem uploadFile_signed_address (w : World) (h : Heap) (filePath : string)
    (expiresIn : option Z) (content u : string) (c : S3Client) :
  existsSync w filePath = true ->
  readFileSync w filePath = inr content ->
  s3Client (this h) = Some c ->
  let put := Spec.file_put w (this h) filePath content in
  let get := {| get_Bucket := Bucket put; get_Key := Key put |} in
  s3_send w c put = inr tt ->
  getSignedUrl w (Some c) get (default 900 expiresIn) = inr u ->
  uploadFile w filePath (Some true) expiresIn h
  = (Normal (Spec.succeeded u),
     {| this := this h;
        log := (log h ++ [Send c put;
                          Presign (Some c) get (default 900 expiresIn)])%list |}).
Proof.
  intros Hex Hread Hc put get Hsend Hsign.
  unfold uploadFile, try_catch. cbn [default].
  rewrite (uploadFile_try_run w h _ _ _ content c Hex Hread Hc).
  cbv zeta. fold put. rewrite Hsend.
  unfold Spec.after_put, Spec.logged, Spec.get_cmd. cbn [log this].
  change {| get_Bucket := bucket (this h); get_Key := Key put |} with get.
  rewrite Hsign, <- app_assoc. reflexivity.
Qed.

Lemma uploadFile_signed_address_witness :
  fst (uploadFile Sample.calm "a/b/photo.PNG" (Some true) None Sample.ready)
  = Normal (Spec.succeeded "https://signed.example/object")
  /\ map is_send
       (log (snd (uploadFile Sample.calm "a/b/photo.PNG" (Some true) None
                    Sample.ready)))
     = [true; false].
Proof.
  rewrite (uploadFile_signed_address Sample.calm Sample.ready "a/b/photo.PNG"
             None "PNGDATA" "https://signed.example/object" Sample.client
             eq_refl eq_refl eq_refl eq_refl eq_refl).
  split; reflexivity.
Defined.

(** X2. A file that exists but cannot be read (a directory, a file
    without permission) gives the failure result carrying the reader's
    message, not "File does not exist", and no backend call is made. *)
Theorem uploadFile_unreadable_file (w : World) (h : Heap) (filePath : string)
    (useSignedUrl : option bool) (expiresIn : option Z) (e : exn) :
  existsSync w filePath = true ->
  readFileSync w filePath = inl e ->
  uploadFile w filePath useSignedUrl expiresIn h
  = (Normal (failure (error_text e)), h).
Proof.
  intros Hex Hread. unfold uploadFile, try_catch, uploadFile_try.
  rewrite Hex. cbn [negb]. run_call. rewrite Hread. reflexivity.
Qed.

Lemma uploadFile_unreadable_file_witness :
  uploadFile unreadable "a/b/photo.PNG" None None Sample.ready
  = (Normal (failure "EISDIR: illegal operation on a directory, read"),
     Sample.ready).
Proof.
  apply (uploadFile_unreadable_file unreadable Sample.ready "a/b/photo.PNG"
           None None (ErrorExn _)); reflexivity.
Defined.

(** X3. When the storage service refuses the PutObject request, the call
    stops there: the result is the failure with the service's message and
    no address, and the signer is never asked, even with
    useSignedUrl = true. The request was issued once and is not retried. *)
Theorem uploadFile_refused_request (w : World) (h : Heap) (filePath : string)
    (useSignedUrl : option bool) (expiresIn : option Z) (content : string)
    (c : S3Client) (e : exn) :
  existsSync w filePath = true ->
  readFileSync w filePath = inr content ->
  s3Client (this h) = Some c ->
  s3_send w c (Spec.file_put w (this h) filePath content) = inl e ->
  uploadFile w filePath useSignedUrl expiresIn h
  = (Normal (failure (error_text e)),
     Spec.logged h (Send c (Spec.file_put w (this h) filePath content))).
Proof.
  intros Hex Hread Hc Hsend. unfold uploadFile, try_catch.
  rewrite (uploadFile_try_run w h _ _ _ content c Hex Hread Hc).
  cbv zeta. rewrite Hsend. reflexivity.
Qed.

Lemma uploadFile_refused_request_witness :
  fst (uploadFile Sample.refusing "a/b/photo.PNG" (Some true) None
         Sample.ready)
  = Normal (failure "Access Denied")
  /\ map is_send
       (log (snd (uploadFile Sample.refusing "a/b/photo.PNG" (Some true)
                    None Sample.ready)))
     = [true].
Proof.
  rewrite (uploadFile_refused_request Sample.refusing Sample.ready
             "a/b/photo.PNG" (Some true) None "PNGDATA" Sample.client
             (ErrorExn "Access Denied") eq_refl eq_refl eq_refl eq_refl).
  split; reflexivity.
Defined.

(** X4. On an instance that was never initialised (no client), uploadFile
    and uploadJson never report success and never reach the storage SDK:
    each returns a failure result and leaves the heap as it was. *)
Theorem uploads_need_initialize (w : World) (h : Heap) :
  s3Client (this h) = None ->
  (forall filePath useSignedUrl expiresIn,
      exists msg,
        uploadFile w filePath useSignedUrl expiresIn h
        = (Normal (failure msg), h))
  /\ (forall jsonData fileName subDirectory useSignedUrl expiresIn,
        exists msg,
          uploadJson w jsonData fileName subDirectory useSignedUrl
            expiresIn h
          = (Normal (Spec.rejected msg), h)).
Proof.
  intros Hc. split.
  - intros filePath useSignedUrl expiresIn.
    unfold uploadFile, try_catch, uploadFile_try.
    destruct (existsSync w filePath); cbn [negb]; [|eexists; reflexivity].
    run_call. destruct (readFileSync w filePath) as [e|content]; simpl;
      [eexists; reflexivity|].
    rewrite Hc. eexists. reflexivity.
  - intros jsonData fileName subDirectory useSignedUrl expiresIn.
    unfold uploadJson, try_catch, uploadJson_try.
    destruct (ToBoolean jsonData); cbn [negb]; [|eexists; reflexivity].
    run_call. rewrite Hc. eexists. reflexivity.
Qed.

Lemma uploads_need_initialize_witness :
  exists msg,
    uploadJson Sample.calm (VObject []) None None None None Sample.empty_heap
    = (Normal (Spec.rejected msg), Sample.empty_heap).
Proof.
  apply (proj2 (uploads_need_initialize Sample.calm Sample.empty_heap
                  eq_refl)).
Defined.

Ltac budget l :=
  exists l; split;
  [ rewrite <- ?app_assoc, ?app_nil_r; reflexivity
  | simpl; repeat split; intros; try lia; try discriminate; reflexivity ].

(** X5. One call of uploadFile or uploadJson adds to the calls already
    made at most one PutObject request and at most one signing request,
    whatever the outcome: nothing is retried. Without useSignedUrl = true
    the signer is never asked. *)
Theorem upload_call_budget (w : World) (h : Heap) :
  (forall filePath useSignedUrl expiresIn,
      exists l,
        log (snd (uploadFile w filePath useSignedUrl expiresIn h))
        = (log h ++ l)%list
        /\ (length (List.filter is_send l) <= 1)%nat
        /\ (length (List.filter is_presign l) <= 1)%nat
        /\ (default false useSignedUrl = false ->
            List.filter is_presign l = []))
  /\ (forall jsonData fileName subDirectory useSignedUrl expiresIn,
        exists l,
          log (snd (uploadJson w jsonData fileName subDirectory
                      useSignedUrl expiresIn h))
          = (log h ++ l)%list
          /\ (length (List.filter is_send l) <= 1)%nat
          /\ (length (List.filter is_presign l) <= 1)%nat
          /\ (default false useSignedUrl = false ->
              List.filter is_presign l = [])).
Proof.
  split.
  - intros filePath useSignedUrl expiresIn.
    unfold uploadFile, try_catch, uploadFile_try.
    destruct (existsSync w filePath); cbn [negb];
      [|budget (@nil event)].
    run_call. destruct (readFileSync w filePath) as [e|content]; simpl;
      [budget (@nil event)|].
    destruct (s3Client (this h)) as [c|] eqn:Hc; simpl;
      [|budget (@nil event)].
    match goal with
    | |- context [s3_send w c ?cmd] =>
        destruct (s3_send w c cmd) as [e|[]]; simpl;
          [budget [Send c cmd]|];
        destruct (default false useSignedUrl) eqn:Hs; simpl;
          [|budget [Send c cmd]]
    end.
    match goal with
    | |- context [getSignedUrl w ?oc ?g ?x] =>
        match goal with
        | |- context [Send c ?cmd] =>
            destruct (getSignedUrl w oc g x); simpl;
              budget [Send c cmd; Presign oc g x]
        end
    end.
  - intros jsonData fileName subDirectory useSignedUrl expiresIn.
    unfold uploadJson, try_catch, uploadJson_try.
    destruct (ToBoolean jsonData); cbn [negb]; [|budget (@nil event)].
    run_call.
    destruct (s3Client (this h)) as [c|] eqn:Hc; simpl;
      [|budget (@nil event)].
    match goal with
    | |- context [s3_send w c ?cmd] =>
        destruct (s3_send w c cmd) as [e|[]]; simpl;
          [budget [Send c cmd]|];
        destruct (default false useSignedUrl) eqn:Hs; simpl;
          [|budget [Send c cmd]]
    end.
    match goal with
    | |- context [getSignedUrl w ?oc ?g ?x] =>
        match goal with
        | |- context [Send c ?cmd] =>
            destruct (getSignedUrl w oc g x); simpl;
              budget [Send c cmd; Presign oc g x]
        end
    end.
Qed.

Lemma upload_call_budget_witness :
  exists l,
    log (snd (uploadFile Sample.calm "a/b/photo.PNG" None None Sample.ready))
    = (log Sample.ready ++ l)%list
    /\ (length (List.filter is_send l) <= 1)%nat
    /\ (length (List.filter is_presign l) <= 1)%nat
    /\ (default false None = false -> List.filter is_presign l = []).
Proof.
  apply (proj1 (upload_call_budget Sample.calm Sample.ready)
           "a/b/photo.PNG" None None).
Defined.

Lemma uploadJson_unsigned_run (w : World) (h : Heap) (c : S3Client)
    (jsonData : value) (fileName subDirectory : option string)
    (useSignedUrl : option bool) (expiresIn : option Z) :
  ToBoolean jsonData = true ->
  s3Client (this h) = Some c ->
  default false useSignedUrl = false ->
  let put := Spec.json_put w (this h) jsonData fileName subDirectory in
  s3_send w c put = inr tt ->
  uploadJson w jsonData fileName subDirectory useSignedUrl expiresIn h
  = (Normal
       {| upload :=
            Spec.succeeded
              (Spec.address (template (bucket (this h)))
                 (template (process_env w "AWS_REGION")) (Key put));
          key := Some (Key put) |},
     Spec.logged h (Send c put)).
Proof.
  intros Htruthy Hc Hplain put Hsend. unfold uploadJson, try_catch.
  rewrite (uploadJson_try_run w h _ _ _ _ _ c Htruthy Hc).
  cbv zeta. fold put. rewrite Hsend, Hplain. reflexivity.
Qed.

Lemma uploadJson_sends (w : World) (h : Heap) (c : S3Client)
    (jsonData : value) (fileName subDirectory : option string)
    (useSignedUrl : option bool) (expiresIn : option Z) :
  ToBoolean jsonData = true ->
  s3Client (this h) = Some c ->
  exists rest,
    log (snd (uploadJson w jsonData fileName subDirectory useSignedUrl
                expiresIn h))
    = (log h ++ Send c (Spec.json_put w (this h) jsonData fileName
                          subDirectory) :: rest)%list.
Proof.
  intros Htruthy Hc. unfold uploadJson, try_catch.
  rewrite (uploadJson_try_run w h _ _ _ _ _ c Htruthy Hc).
  cbv zeta. unfold Spec.after_put, Spec.logged. cbn [log this].
  destruct (s3_send w c _) as [e|[]]; [exists []; reflexivity|].
  destruct (default false useSignedUrl); [|exists []; reflexivity].
  destruct (getSignedUrl w _ _ _); simpl; rewrite <- app_assoc;
    eexists; reflexivity.
Qed.

(** X6. The key uploadJson returns is the key to hand to
    generateSignedUrl: after a successful unsigned upload, signing that
    key asks the signer for exactly the bucket and key of the object just
    stored (no prefix is added a second time), with 900 seconds when no
    expiry is given, and makes no further PutObject request. *)
Theorem signing_the_returned_key (w w' : World) (h : Heap) (c : S3Client)
    (jsonData : value) (fileName subDirectory : option string)
    (expiresIn expiresIn' : option Z) :
  ToBoolean jsonData = true ->
  s3Client (this h) = Some c ->
  let put := Spec.json_put w (this h) jsonData fileName subDirectory in
  s3_send w c put = inr tt ->
  let stored :=
    uploadJson w jsonData fileName subDirectory (Some false) expiresIn h in
  exists r,
    fst stored = Normal r
    /\ key r = Some (Key put)
    /\ log (snd stored) = (log h ++ [Send c put])%list
    /\ log (snd (generateSignedUrl w' (Key put) expiresIn' (snd stored)))
       = (log (snd stored)
          ++ [Presign (Some c)
                {| get_Bucket := Bucket put; get_Key := Key put |}
                (default 900 expiresIn')])%list.
Proof.
  intros Htruthy Hc put Hsend stored. subst stored.
  rewrite (uploadJson_unsigned_run w h c _ _ _ (Some false) _ Htruthy Hc
             eq_refl Hsend).
  fold put. eexists. split; [reflexivity|]. split; [reflexivity|].
  split; [reflexivity|].
  unfold generateSignedUrl. run_call. rewrite Hc.
  destruct (getSignedUrl w' _ _ _); reflexivity.
Qed.

Lemma signing_the_returned_key_witness :
  log (snd (generateSignedUrl Sample.refusing "uploads/data.json" (Some 60)
              (snd (uploadJson Sample.calm (VObject []) (Some "data.json")
                      None (Some false) None Sample.ready))))
  = [Send Sample.client
       {| Bucket := Some "my-bucket"; Key := "uploads/data.json";
          Body := JsonText "{}"; ContentType := "application/json" |};
     Presign (Some Sample.client)
       {| get_Bucket := Some "my-bucket"; get_Key := "uploads/data.json" |}
       60].
Proof.
  destruct (signing_the_returned_key Sample.calm Sample.refusing
              Sample.ready Sample.client (VObject []) (Some "data.json")
              None None (Some 60) eq_refl eq_refl eq_refl)
    as (r & _ & _ & _ & Hlog).
  exact Hlog.
Defined.

(* ===================================================================== *)
(** ** Further properties of initialize *)
(* ===================================================================== *)

Lemma initialize_ok (rt : IAgentRuntime) (h : Heap) :
  Forall (Spec.present rt) Spec.required ->
  initialize rt h
  = (Normal tt,
     {| this :=
          {| s3Client :=
               Some {| region := template (getSetting rt "AWS_REGION");
                       accessKeyId :=
                         template (getSetting rt "AWS_ACCESS_KEY_ID");
                       secretAccessKey :=
                         template (getSetting rt "AWS_SECRET_ACCESS_KEY") |};
             bucket := Some (template (getSetting rt "AWS_S3_BUCKET"));
             fileUploadPath :=
               Some (nullish (getSetting rt "AWS_S3_UPLOAD_PATH") "");
             runtime := Some rt |};
        log := log h |}).
Proof.
  intros Hall. apply all_present_truthy in Hall.
  unfold initialize, bind, set_this, throw. simpl. rewrite Hall.
  apply orb_false_iff in Hall as [_ Hb].
  rewrite <- (truthy_template _ Hb). reflexivity.
Qed.

Lemma initialize_throws (rt : IAgentRuntime) (h : Heap) :
  ~ Forall (Spec.present rt) Spec.required ->
  initialize rt h
  = (Throw missing_credentials,
     {| this := {| s3Client := s3Client (this h); bucket := bucket (this h);
                   fileUploadPath := fileUploadPath (this h);
                   runtime := Some rt |};
        log := log h |}).
Proof.
  intros Hmissing. rewrite all_present_truthy in Hmissing.
  apply not_false_iff_true in Hmissing.
  unfold initialize, bind, set_this, throw. simpl. rewrite Hmissing.
  reflexivity.
Qed.

Lemma classic_present (rt : IAgentRuntime) :
  Forall (Spec.present rt) Spec.required
  \/ ~ Forall (Spec.present rt) Spec.required.
Proof.
  rewrite all_present_truthy.
  destruct (falsy _ || falsy _ || falsy _ || falsy _); [right|left];
    congruence.
Qed.

(** X7. initialize never reaches the storage SDK. When it throws for a
    missing setting, an instance configured earlier keeps its client,
    bucket and upload path, but its runtime field already refers to the
    new runtime: the assignment precedes the check. *)
Theorem initialize_failure_is_partial (rt : IAgentRuntime) (h : Heap) :
  log (snd (initialize rt h)) = log h
  /\ (~ Forall (Spec.present rt) Spec.required ->
      let t := this (snd (initialize rt h)) in
      s3Client t = s3Client (this h)
      /\ bucket t = bucket (this h)
      /\ fileUploadPath t = fileUploadPath (this h)
      /\ runtime t = Some rt).
Proof.
  split.
  - destruct (classic_present rt) as [Hall|Hmissing].
    + rewrite (initialize_ok rt h Hall). reflexivity.
    + rewrite (initialize_throws rt h Hmissing). reflexivity.
  - intros Hmissing. rewrite (initialize_throws rt h Hmissing).
    repeat split.
Qed.

Lemma initialize_failure_is_partial_witness :
  let t := this (snd (initialize Sample.agent_without_bucket Sample.ready)) in
  s3Client t = Some Sample.client
  /\ bucket t = Some "my-bucket"
  /\ fileUploadPath t = Some "uploads"
  /\ runtime t = Some Sample.agent_without_bucket.
Proof.
  apply (proj2 (initialize_failure_is_partial Sample.agent_without_bucket
                  Sample.ready)).
  intros Hall. unfold Spec.required in Hall.
  rewrite !Forall_cons in Hall.
  destruct Hall as (_ & _ & _ & (s & Hs & Hne) & _).
  injection Hs as <-. contradiction.
Defined.

(** X8. initialize and uploadFile fit together: on an instance
    initialised from a complete settings source, an unsigned upload of an
    existing readable file to an accepting backend sends one request
    through a client bound to the AWS_REGION setting and the two
    credentials, to the bucket AWS_S3_BUCKET, under the key built from
    AWS_S3_UPLOAD_PATH (empty when absent), the clock and the basename,
    with the file's bytes. The address returned names the same bucket and
    key, with the region of the process environment. *)
Theorem initialize_then_uploadFile (rt : IAgentRuntime) (h : Heap)
    (w : World) (filePath content : string) (expiresIn : option Z) :
  Forall (Spec.present rt) Spec.required ->
  existsSync w filePath = true ->
  readFileSync w filePath = inr content ->
  (forall c cmd, s3_send w c cmd = inr tt) ->
  let c := {| region := template (getSetting rt "AWS_REGION");
              accessKeyId := template (getSetting rt "AWS_ACCESS_KEY_ID");
              secretAccessKey :=
                template (getSetting rt "AWS_SECRET_ACCESS_KEY") |} in
  let B := template (getSetting rt "AWS_S3_BUCKET") in
  let K := replaceAll_slash2
             (Spec.raw_file_path
                (nullish (getSetting rt "AWS_S3_UPLOAD_PATH") "")
                (Date_now w) filePath) in
  let h1 := snd (initialize rt h) in
  uploadFile w filePath (Some false) expiresIn h1
  = (Normal (Spec.succeeded
               (Spec.address B (template (process_env w "AWS_REGION")) K)),
     {| this := this h1;
        log := (log h ++ [Send c {| Bucket := Some B; Key := K;
                                    Body := FileBytes content;
                                    ContentType := getContentType filePath |}])%list |}).
Proof.
  intros Hall Hex Hread Haccept c B K h1. subst h1.
  rewrite (initialize_ok rt h Hall). cbn [snd].
  unfold uploadFile, try_catch. cbn [default].
  match goal with
  | |- context [uploadFile_try w filePath ?b ?x ?h1] =>
      rewrite (uploadFile_try_run w h1 filePath b x content c
                 Hex Hread eq_refl)
  end.
  cbv zeta. rewrite Haccept. reflexivity.
Qed.

Lemma initialize_then_uploadFile_witness :
  fst (uploadFile Sample.calm "a/b/photo.PNG" (Some false) None
         (snd (initialize Sample.agent Sample.empty_heap)))
  = Normal (Spec.succeeded
      (Spec.address "my-bucket" "undefined"
         "uploads/1700000000000-photo.PNG")).
Proof.
  rewrite (initialize_then_uploadFile Sample.agent Sample.empty_heap
             Sample.calm "a/b/photo.PNG" "PNGDATA" None).
  - reflexivity.
  - unfold Spec.required.
    repeat (apply Forall_cons_2;
            [eexists; split; [reflexivity | discriminate]|]).
    apply Forall_nil_2.
  - reflexivity.
  - reflexivity.
  - intros c cmd. reflexivity.
Defined.

(* ===================================================================== *)
(** ** Further properties of the keys *)
(* ===================================================================== *)

Lemma starts_with_slash_replaceAll (s : string) :
  starts_with_slash (replaceAll_slash2 s) = starts_with_slash s.
Proof.
  destruct s as [|c [|c' r]]; [reflexivity | reflexivity |].
  rewrite replaceAll_slash2_step. cbn [starts_with_slash].
  destruct (Ascii.eqb c slash) eqn:Hc; destruct (Ascii.eqb c' slash);
    cbn [andb starts_with_slash]; try exact Hc; reflexivity.
Qed.

(** X9. When AWS_S3_UPLOAD_PATH is absent or empty, the instance holds
    the empty prefix and every key, of uploadFile and of uploadJson alike,
    begins with a slash. *)
Theorem keys_without_upload_path (rt : IAgentRuntime) (h : Heap) (w : World) :
  Forall (Spec.present rt) Spec.required ->
  falsy (getSetting rt "AWS_S3_UPLOAD_PATH") = true ->
  let prefix := fileUploadPath (this (snd (initialize rt h))) in
  prefix = Some ""
  /\ (forall filePath,
        starts_with_slash (file_key w prefix filePath) = true)
  /\ (forall fileName subDirectory,
        starts_with_slash (json_key w prefix fileName subDirectory) = true).
Proof.
  intros Hall Hpath prefix. subst prefix.
  rewrite (initialize_ok rt h Hall). cbn [snd this fileUploadPath].
  assert (Hempty : nullish (getSetting rt "AWS_S3_UPLOAD_PATH") "" = "")
    by (destruct (getSetting rt "AWS_S3_UPLOAD_PATH") as [[|]|];
        [reflexivity | discriminate | reflexivity]).
  rewrite Hempty. split; [reflexivity|]. split.
  - intros filePath. unfold file_key.
    rewrite starts_with_slash_replaceAll. reflexivity.
  - intros fileName subDirectory.
    rewrite json_key_collapses, starts_with_slash_replace.
    unfold Spec.raw_json_path.
    destruct (falsy subDirectory); reflexivity.
Qed.

Lemma keys_without_upload_path_witness :
  starts_with_slash
    (json_key Sample.calm
       (fileUploadPath
          (this (snd (initialize agent_without_path Sample.empty_heap))))
       (Some "data.json") None) = true.
Proof.
  apply (keys_without_upload_path agent_without_path Sample.empty_heap
           Sample.calm).
  - unfold Spec.required.
    repeat (apply Forall_cons_2;
            [eexists; split; [reflexivity | discriminate]|]).
    apply Forall_nil_2.
  - reflexivity.
Defined.

(** X10. A supplied filename is never made unique: two uploadJson calls
    on the same instance with the same non-empty filename and the same
    sub-directory send their requests to the same bucket and key,
    whatever the payloads, the clock and the signing options, so the
    second object replaces the first. *)
Theorem same_filename_same_key (w1 w2 : World) (h : Heap) (c : S3Client)
    (d1 d2 : value) (name : string) (subDirectory : option string)
    (s1 s2 : option bool) (x1 x2 : option Z) :
  s3Client (this h) = Some c ->
  ToBoolean d1 = true ->
  ToBoolean d2 = true ->
  name <> "" ->
  let h1 := snd (uploadJson w1 d1 (Some name) subDirectory s1 x1 h) in
  let h2 := snd (uploadJson w2 d2 (Some name) subDirectory s2 x2 h1) in
  exists cmd1 cmd2 rest1 rest2,
    log h1 = (log h ++ Send c cmd1 :: rest1)%list
    /\ log h2 = (log h1 ++ Send c cmd2 :: rest2)%list
    /\ Bucket cmd1 = Bucket cmd2
    /\ Key cmd1 = Key cmd2.
Proof.
  intros Hc Ht1 Ht2 Hname h1 h2.
  assert (Hsame : this h1 = this h) by apply keeps_uploadJson.
  assert (Hc1 : s3Client (this h1) = Some c) by (rewrite Hsame; exact Hc).
  destruct (uploadJson_sends w1 h c d1 (Some name) subDirectory s1 x1 Ht1 Hc)
    as [rest1 Hlog1].
  destruct (uploadJson_sends w2 h1 c d2 (Some name) subDirectory s2 x2
              Ht2 Hc1) as [rest2 Hlog2].
  do 4 eexists. split; [exact Hlog1|]. split; [exact Hlog2|].
  rewrite Hsame. unfold Spec.json_put, json_key. cbn [Bucket Key].
  destruct name as [|a b]; [contradiction|]. split; reflexivity.
Qed.

Lemma same_filename_same_key_witness :
  let h1 := snd (uploadJson Sample.calm (VObject [("v", VNumber (Int 1))])
                   (Some "state.json") None None None Sample.ready) in
  let h2 := snd (uploadJson later (VObject [("v", VNumber (Int 2))])
                   (Some "state.json") None None None h1) in
  exists cmd1 cmd2 rest1 rest2,
    log h1 = (log Sample.ready ++ Send Sample.client cmd1 :: rest1)%list
    /\ log h2 = (log h1 ++ Send Sample.client cmd2 :: rest2)%list
    /\ Bucket cmd1 = Bucket cmd2
    /\ Key cmd1 = Key cmd2.
Proof.
  apply (same_filename_same_key Sample.calm later Sample.ready
           Sample.client); try reflexivity.
  discriminate.
Defined.

(** X11. uploadFile's key is free of doubled slashes, and equals the raw
    path with every run collapsed, whenever the raw path
    [{prefix}/{timestamp}-{basename}] has no three slashes in a row; an
    upload path with at most one trailing slash is the usual case. *)
Theorem uploadFile_key_short_runs (w : World) (prefix : option string)
    (filePath : string) :
  has_triple_slash
    (Spec.raw_file_path (template prefix) (Date_now w) filePath) = false ->
  file_key w prefix filePath
  = replace_slashes
      (Spec.raw_file_path (template prefix) (Date_now w) filePath)
  /\ has_double_slash (file_key w prefix filePath) = false.
Proof.
  intros Hshort.
  assert (Hkey : file_key w prefix filePath
                 = replace_slashes
                     (Spec.raw_file_path (template prefix) (Date_now w)
                        filePath))
    by (unfold file_key; apply replaceAll_slash2_short_runs, Hshort).
  split; [exact Hkey|]. rewrite Hkey. apply replace_slashes_no_double.
Qed.

Lemma uploadFile_key_short_runs_witness :
  file_key Sample.calm (Some "uploads/") "x.png"
  = "uploads/1700000000000-x.png"
  /\ has_double_slash (file_key Sample.calm (Some "uploads/") "x.png")
     = false.
Proof.
  destruct (uploadFile_key_short_runs Sample.calm (Some "uploads/") "x.png")
    as [Hkey Hclean]; [vm_compute; reflexivity|].
  split; [rewrite Hkey; vm_compute; reflexivity | exact Hclean].
Defined.

Lemma replace_slashes_no_slash (s : string) :
  has_slash s = false -> replace_slashes s = s.
Proof.
  induction s as [|c r IH]; simpl; [reflexivity|].
  intros H. apply orb_false_iff in H as [Hc Hr].
  rewrite Hc, (IH Hr). reflexivity.
Qed.

Lemma replace_slashes_keeps_suffix (a b : string) :
  has_slash b = false -> ends_with b (replace_slashes (a +:+ b)).
Proof.
  intros Hb. induction a as [|c r [front IH]].
  - exists "". simpl. apply replace_slashes_no_slash, Hb.
  - rewrite append_cons, replace_slashes_step, IH.
    destruct (Ascii.eqb c slash).
    + destruct (starts_with_slash (r +:+ b)).
      * exists front. reflexivity.
      * exists (String slash front). reflexivity.
    + exists (String c front). reflexivity.
Qed.

(** X12. When no filename (or an empty one) is supplied, the key
    uploadJson builds ends with ".json", whatever the prefix and the
    sub-directory. *)
Theorem default_json_key_extension (w : World)
    (prefix fileName subDirectory : option string) :
  falsy fileName = true ->
  ends_with ".json" (json_key w prefix fileName subDirectory).
Proof.
  intros Hnone. rewrite json_key_collapses.
  unfold Spec.raw_json_path, or_else. rewrite Hnone.
  rewrite <- !append_assoc.
  apply replace_slashes_keeps_suffix. reflexivity.
Qed.

Lemma default_json_key_extension_witness :
  ends_with ".json" (json_key Sample.calm (Some "uploads//") (Some "")
                       (Some "/meta/")).
Proof.
  apply (default_json_key_extension Sample.calm); reflexivity.
Defined.

(** X13. getContentType answers one of five strings and nothing else:
    the four image types of its table or application/octet-stream. *)
Theorem getContentType_range (filePath : string) :
  In (getContentType filePath)
     ["image/png"; "image/jpeg"; "image/gif"; "image/webp";
      "application/octet-stream"].
Proof.
  rewrite getContentType_table. unfold Spec.table_type.
  repeat (destruct (String.eqb _ _); [simpl; auto 10|]).
  simpl; auto 10.
Qed.

Lemma uploadFile_shape (w : World) (h : Heap) (filePath : string)
    (useSignedUrl : option bool) (expiresIn : option Z) (r : UploadResult) :
  fst (uploadFile w filePath useSignedUrl expiresIn h) = Normal r ->
  (success r = true /\ is_Some (url r) /\ error r = None)
  \/ (success r = false /\ url r = None /\ is_Some (error r)).
Proof.
  unfold uploadFile, try_catch, uploadFile_try.
  destruct (existsSync w filePath); cbn [negb]; run_call;
    [|intros [= <-]; right; simpl; eauto].
  destruct (readFileSync w filePath) as [e|content]; simpl;
    [intros [= <-]; right; simpl; eauto|].
  destruct (s3Client (this h)) as [c|]; simpl;
    [|intros [= <-]; right; simpl; eauto].
  destruct (s3_send w c _) as [e|[]]; simpl;
    [intros [= <-]; right; simpl; eauto|].
  destruct (default false useSignedUrl); simpl;
    [|intros [= <-]; left; simpl; eauto].
  destruct (getSignedUrl w _ _ _); simpl; intros [= <-];
    [right | left]; simpl; eauto.
Qed.

Lemma uploadJson_shape (w : World) (h : Heap) (jsonData : value)
    (fileName subDirectory : option string) (useSignedUrl : option bool)
    (expiresIn : option Z) (r : JsonUploadResult) :
  fst (uploadJson w jsonData fileName subDirectory useSignedUrl expiresIn h)
  = Normal r ->
  (success (upload r) = true /\ is_Some (url (upload r))
   /\ error (upload r) = None /\ is_Some (key r))
  \/ (success (upload r) = false /\ url (upload r) = None
      /\ is_Some (error (upload r)) /\ key r = None).
Proof.
  unfold uploadJson, try_catch, uploadJson_try.
  destruct (ToBoolean jsonData); cbn [negb]; run_call;
    [|intros [= <-]; right; simpl; eauto].
  destruct (s3Client (this h)) as [c|]; simpl;
    [|intros [= <-]; right; simpl; eauto].
  destruct (s3_send w c _) as [e|[]]; simpl;
    [intros [= <-]; right; simpl; eauto|].
  destruct (default false useSignedUrl); simpl;
    [|intros [= <-]; left; simpl; eauto 6].
  destruct (getSignedUrl w _ _ _); simpl; intros [= <-];
    [right | left]; simpl; eauto 6.
Qed.

(** X14. The result of uploadFile is well formed: it either reports
    success with an address and no error, or failure with an error and no
    address. The result of uploadJson likewise, and it carries a key
    exactly when it reports success. *)
Theorem upload_results_are_well_formed (w : World) (h : Heap) :
  (forall filePath useSignedUrl expiresIn r,
      fst (uploadFile w filePath useSignedUrl expiresIn h) = Normal r ->
      (success r = true /\ is_Some (url r) /\ error r = None)
      \/ (success r = false /\ url r = None /\ is_Some (error r)))
  /\ (forall jsonData fileName subDirectory useSignedUrl expiresIn r,
        fst (uploadJson w jsonData fileName subDirectory useSignedUrl
               expiresIn h) = Normal r ->
        (success (upload r) = true /\ is_Some (url (upload r))
         /\ error (upload r) = None /\ is_Some (key r))
        \/ (success (upload r) = false /\ url (upload r) = None
            /\ is_Some (error (upload r)) /\ key r = None)).
Proof.
  split; intros.
  - eapply uploadFile_shape; eassumption.
  - eapply uploadJson_shape; eassumption.
Qed.

Lemma upload_results_are_well_formed_witness :
  let r := failure "Access Denied" in
  (success r = true /\ is_Some (url r) /\ error r = None)
  \/ (success r = false /\ url r = None /\ is_Some (error r)).
Proof.
  apply (proj1 (upload_results_are_well_formed Sample.refusing Sample.ready)
           "a/b/photo.PNG" None None).
  reflexivity.
Defined.

(* ===================================================================== *)
(** ** The action's validate *)
(* ===================================================================== *)

Lemma negb_falsy_present (rt : IAgentRuntime) (k : string) :
  negb (falsy (getSetting rt k)) = true <-> Spec.present rt k.
Proof. rewrite present_truthy, negb_true_iff. reflexivity. Qed.

Lemma validate_needs_one_setting_aux (rt : IAgentRuntime) :
  Exists (Spec.present rt) Spec.required -> validate rt = true.
Proof.
  unfold validate, Spec.required.
  rewrite !Exists_cons, Exists_nil, !orb_true_iff, !negb_falsy_present.
  tauto.
Qed.

(** X15. validate accepts as soon as one of the four AWS settings is
    present and non-empty, and rejects only when all four are missing. *)
Theorem validate_needs_one_setting (rt : IAgentRuntime) :
  validate rt = true <-> Exists (Spec.present rt) Spec.required.
Proof.
  unfold validate, Spec.required.
  rewrite !Exists_cons, Exists_nil, !orb_true_iff, !negb_falsy_present.
  tauto.
Qed.

(** X16. validate asks less than initialize needs. Whenever initialize
    succeeds validate accepts, but a source that passes validate with one
    of the four settings missing makes initialize throw. *)
Theorem validate_is_weaker_than_initialize (rt : IAgentRuntime) (h : Heap) :
  (fst (initialize rt h) = Normal tt -> validate rt = true)
  /\ (validate rt = true ->
      ~ Forall (Spec.present rt) Spec.required ->
      fst (initialize rt h) = Throw missing_credentials).
Proof.
  split.
  - intros Hok. destruct (classic_present rt) as [Hall|Hmissing].
    + apply validate_needs_one_setting_aux.
      unfold Spec.required in *. rewrite Forall_cons in Hall.
      apply Exists_cons. left. apply Hall.
    + rewrite (initialize_throws rt h Hmissing) in Hok. discriminate.
  - intros _ Hmissing. rewrite (initialize_throws rt h Hmissing).
    reflexivity.
Qed.

Lemma validate_is_weaker_than_initialize_witness :
  validate region_only = true
  /\ fst (initialize region_only Sample.empty_heap)
     = Throw missing_credentials.
Proof.
  split; [reflexivity|].
  apply (proj2 (validate_is_weaker_than_initialize region_only
                  Sample.empty_heap)); [reflexivity|].
  intros Hall. unfold Spec.required in Hall.
  rewrite !Forall_cons in Hall.
  destruct Hall as ((s & Hs & _) & _). discriminate.
Defined.

(* ===================================================================== *)
(** ** Saving generated images *)
(* ===================================================================== *)

Lemma after_literal_app (p s : string) : after_literal p (p +:+ s) = Some s.
Proof.
  induction p as [|a p IH]; [reflexivity|].
  rewrite append_cons. cbn [after_literal].
  rewrite Ascii.eqb_refl. exact IH.
Qed.

Lemma after_literal_inv (p s r : string) :
  after_literal p s = Some r -> s = p +:+ r.
Proof.
  revert s. induction p as [|a p IH]; intros s H.
  - injection H as <-. reflexivity.
  - destruct s as [|b s]; [discriminate|]. cbn [after_literal] in H.
    destruct (Ascii.eqb_spec a b) as [->|]; [|discriminate].
    rewrite append_cons, <- (IH _ H). reflexivity.
Qed.

Lemma after_word_run_app (w s : string) :
  all_word w = true -> after_word_run (w +:+ s) = after_word_run s.
Proof.
  induction w as [|c w IH]; [reflexivity|].
  cbn [all_word]. intros H. apply andb_true_iff in H as [Hc Hw].
  rewrite append_cons. cbn [after_word_run]. rewrite Hc. exact (IH Hw).
Qed.

Lemma word_run_split (s : string) :
  exists w, all_word w = true /\ s = w +:+ after_word_run s.
Proof.
  induction s as [|c s (w & Hw & Hs)].
  - exists "". split; reflexivity.
  - cbn [after_word_run]. destruct (is_word c) eqn:Hc.
    + exists (String c w). split.
      * cbn [all_word]. rewrite Hc, Hw. reflexivity.
      * rewrite append_cons, <- Hs. reflexivity.
    + exists "". split; reflexivity.
Qed.

Lemma strip_data_url_match (w rest : string) :
  w <> "" -> all_word w = true ->
  strip_data_url ("data:image/" +:+ w +:+ ";base64," +:+ rest) = rest.
Proof.
  intros Hne Hw. unfold strip_data_url. rewrite after_literal_app.
  destruct w as [|c w]; [contradiction|].
  cbn [all_word] in Hw. apply andb_true_iff in Hw as [Hc Hw].
  rewrite append_cons, Hc, (after_word_run_app _ _ Hw).
  change (after_word_run (";base64," +:+ rest)) with (";base64," +:+ rest).
  rewrite after_literal_app. reflexivity.
Qed.

(** X17. The pattern of saveBase64Image removes a prefix only of the
    exact shape [data:image/<word characters>;base64,]: any other input,
    for instance one whose subtype has a character outside A-Z, a-z, 0-9
    and the underscore, is passed to the decoder unchanged, and what is
    removed is never part of the payload after the comma. *)
Theorem strip_data_url_shape (base64Data : string) :
  strip_data_url base64Data = base64Data
  \/ exists w rest,
       w <> "" /\ all_word w = true
       /\ base64Data = "data:image/" +:+ w +:+ ";base64," +:+ rest
       /\ strip_data_url base64Data = rest.
Proof.
  unfold strip_data_url.
  destruct (after_literal "data:image/" base64Data) as [[|c r]|] eqn:Hhead;
    [left; reflexivity | | left; reflexivity].
  destruct (is_word c) eqn:Hc; [|left; reflexivity].
  destruct (after_literal ";base64," (after_word_run r)) as [rest|] eqn:Htail;
    [|left; reflexivity].
  right. destruct (word_run_split r) as (w & Hw & Hr).
  exists (String c w), rest. split; [discriminate|]. split.
  - cbn [all_word]. rewrite Hc, Hw. reflexivity.
  - split; [|reflexivity].
    apply after_literal_inv in Hhead. apply after_literal_inv in Htail.
    rewrite Hhead, Hr, Htail, append_cons. reflexivity.
Qed.

(** X18. For a data URL whose subtype is made of word characters,
    saveBase64Image on a host whose image directory exists and whose
    write succeeds makes one write and nothing else: the decoding of the
    part after the comma, to the file [{filename}.png] joined to the
    image directory, whose path it returns. The directory is not created
    again. *)
Theorem saveBase64Image_data_url (host : Host) (w rest filename : string)
    (t : list effect) :
  w <> "" -> all_word w = true ->
  dir_exists host (imageDir host) = true ->
  let filepath := join host (imageDir host) (filename +:+ ".png") in
  writeFileSync host filepath (from_base64 host rest) = inr tt ->
  saveBase64Image host ("data:image/" +:+ w +:+ ";base64," +:+ rest)
    filename t
  = (Normal filepath,
     (t ++ [WriteFile filepath (from_base64 host rest)])%list).
Proof.
  intros Hne Hw Hdir filepath Hwrite.
  unfold saveBase64Image, ensure_imageDir, io_bind, io_ret, perform.
  rewrite Hdir. cbn [negb]. rewrite (strip_data_url_match w rest Hne Hw).
  fold filepath. rewrite Hwrite. reflexivity.
Qed.

Lemma saveBase64Image_data_url_witness :
  saveBase64Image plain_host "data:image/png;base64,iVBORw0KGgo=" "logo" []
  = (Normal "/srv/agent/generatedImages/logo.png",
     [WriteFile "/srv/agent/generatedImages/logo.png" "iVBORw0KGgo="]).
Proof.
  apply (saveBase64Image_data_url plain_host "png" "iVBORw0KGgo=" "logo" []);
    try reflexivity.
  discriminate.
Defined.

(** X19. When the response is not ok, saveHeuristImage throws the Error
    "Failed to fetch image: " followed by the status text and writes no
    file; the image directory has been created by then if it was
    missing. *)
Theorem saveHeuristImage_bad_status (host : Host) (imageUrl filename : string)
    (response : Response) (t : list effect) :
  (dir_exists host (imageDir host) = false ->
   mkdirSync host (imageDir host) = inr tt) ->
  fetch host imageUrl = inr response ->
  ok response = false ->
  saveHeuristImage host imageUrl filename t
  = (Throw (ErrorExn ("Failed to fetch image: " +:+ statusText response)),
     (t ++ (if dir_exists host (imageDir host) then []
            else [Mkdir (imageDir host)])
        ++ [Fetch imageUrl])%list).
Proof.
  intros Hmkdir Hfetch Hbad.
  unfold saveHeuristImage, ensure_imageDir, io_bind, io_ret, io_throw,
    perform.
  destruct (dir_exists host (imageDir host)); cbn [negb].
  - rewrite Hfetch, Hbad. reflexivity.
  - rewrite (Hmkdir eq_refl), Hfetch, Hbad, <- app_assoc. reflexivity.
Qed.

Lemma saveHeuristImage_bad_status_witness :
  saveHeuristImage plain_host "https://img.example/1.png" "logo" []
  = (Throw (ErrorExn "Failed to fetch image: Not Found"),
     [Fetch "https://img.example/1.png"]).
Proof.
  apply (saveHeuristImage_bad_status plain_host "https://img.example/1.png"
           "logo" {| ok := false; statusText := "Not Found";
                     arrayBuffer := inr "" |} []);
    reflexivity.
Defined.

(** X20. If the image directory is missing and cannot be created,
    neither save function goes further: the exception of mkdirSync
    leaves the function, and nothing is fetched or written. *)
Theorem save_stops_without_directory (host : Host) (e : exn)
    (t : list effect) :
  dir_exists host (imageDir host) = false ->
  mkdirSync host (imageDir host) = inl e ->
  (forall base64Data filename,
      saveBase64Image host base64Data filename t
      = (Throw e, (t ++ [Mkdir (imageDir host)])%list))
  /\ (forall imageUrl filename,
        saveHeuristImage host imageUrl filename t
        = (Throw e, (t ++ [Mkdir (imageDir host)])%list)).
Proof.
  intros Hdir Hmkdir.
  split; intros;
    unfold saveBase64Image, saveHeuristImage, ensure_imageDir, io_bind,
      perform;
    rewrite Hdir; cbn [negb]; rewrite Hmkdir; reflexivity.
Qed.

Lemma save_stops_without_directory_witness :
  saveBase64Image readonly_host "iVBORw0KGgo=" "logo" []
  = (Throw (ErrorExn "EROFS: read-only file system, mkdir"),
     [Mkdir "/srv/agent/generatedImages"]).
Proof.
  apply (proj1 (save_stops_without_directory readonly_host
                  (ErrorExn "EROFS: read-only file system, mkdir") []
                  eq_refl eq_refl)).
Defined.

(* ===================================================================== *)
(** ** The storage steps of the handler *)
(* ===================================================================== *)

Lemma store_collection_run (w1 w2 : World) (h h1 : Heap)
    (filepath name : string) (r : UploadResult) :
  uploadFile w1 filepath (Some false) None h = (Normal r, h1) ->
  store_collection w1 w2 filepath name h
  = match uploadJson w2 (collection_metadata name r) None None None None h1
    with
    | (Normal j, h2) => (Normal (r, url (upload j)), h2)
    | (Throw e, h2) => (Throw e, h2)
    end.
Proof.
  intros Hlogo. unfold store_collection, bind. rewrite Hlogo.
  destruct (uploadJson w2 _ None None None None h1) as [[j|e] h2];
    reflexivity.
Qed.

(** X21. The handler writes the metadata document whatever became of the
    logo: after uploadFile has returned, on an initialised instance, one
    application/json request follows under a timestamp-named key. Its body
    is the document with name and description, and with an image property
    holding the logo's address only when the logo result has one; after a
    failed logo upload the property is absent. *)
Theorem metadata_follows_logo (w1 w2 : World) (h h1 : Heap) (c : S3Client)
    (filepath name : string) (r : UploadResult) :
  uploadFile w1 filepath (Some false) None h = (Normal r, h1) ->
  s3Client (this h) = Some c ->
  let document :=
    VObject ([("name", VString name); ("description", VString name)]
             ++ match url r with
                | Some u => [("image", VString u)]
                | None => []
                end) in
  exists rest,
    log (snd (store_collection w1 w2 filepath name h))
    = (log h1
       ++ Send c {| Bucket := bucket (this h);
                    Key := json_key w2 (fileUploadPath (this h)) None None;
                    Body := json_body document;
                    ContentType := "application/json" |} :: rest)%list.
Proof.
  intros Hlogo Hc document.
  assert (Hsame : this h1 = this h).
  { pose proof (keeps_uploadFile w1 filepath (Some false) None h) as Hkeep.
    rewrite Hlogo in Hkeep. exact Hkeep. }
  assert (Hc1 : s3Client (this h1) = Some c) by (rewrite Hsame; exact Hc).
  destruct (uploadJson_sends w2 h1 c (collection_metadata name r) None None
              None None eq_refl Hc1) as [rest Hlog].
  exists rest. rewrite (store_collection_run w1 w2 h h1 _ _ r Hlogo).
  assert (Hbody : json_body (collection_metadata name r)
                  = json_body document)
    by (subst document; unfold collection_metadata, url_property;
        destruct (url r); reflexivity).
  unfold Spec.json_put in Hlog. rewrite Hsame, Hbody in Hlog.
  destruct (uploadJson w2 _ None None None None h1) as [[j|e] h2];
    exact Hlog.
Qed.

Lemma metadata_follows_logo_witness :
  exists rest,
    log (snd (store_collection Sample.calm later "no/such/file.png" "Eliza"
                Sample.ready))
    = (log Sample.ready
       ++ Send Sample.client
            {| Bucket := Some "my-bucket";
               Key := "uploads/1700000005000.json";
               Body := json_body
                         (VObject [("name", VString "Eliza");
                                   ("description", VString "Eliza")]);
               ContentType := "application/json" |} :: rest)%list.
Proof.
  apply (metadata_follows_logo Sample.calm later Sample.ready Sample.ready
           Sample.client "no/such/file.png" "Eliza"
           (failure "File does not exist")); reflexivity.
Defined.

(** X22. The storage steps of the handler never throw, and they leave
    the instance's configuration alone. On an instance without a client
    both uploads fail quietly: no request is made and the uri handed on to
    the wallet is undefined. *)
Theorem store_collection_fails_quietly (w1 w2 : World) (h : Heap)
    (filepath name : string) :
  exists logo uri h',
    store_collection w1 w2 filepath name h = (Normal (logo, uri), h')
    /\ this h' = this h
    /\ (s3Client (this h) = None ->
        success logo = false /\ uri = None /\ log h' = log h).
Proof.
  destruct (uploadFile w1 filepath (Some false) None h) as [[r|e] h1]
    eqn:Hlogo.
  2: { destruct (uploadFile_never_throws w1 filepath (Some false) None h)
         as [a Ha]. rewrite Hlogo in Ha. discriminate. }
  assert (Hsame : this h1 = this h).
  { pose proof (keeps_uploadFile w1 filepath (Some false) None h) as Hkeep.
    rewrite Hlogo in Hkeep. exact Hkeep. }
  rewrite (store_collection_run w1 w2 h h1 _ _ r Hlogo).
  destruct (uploadJson w2 (collection_metadata name r) None None None None
              h1) as [[j|e] h2] eqn:Hjson.
  2: { destruct (uploadJson_never_throws w2 (collection_metadata name r)
                   None None None None h1) as [a Ha].
       rewrite Hjson in Ha. discriminate. }
  exists r, (url (upload j)), h2. split; [reflexivity|]. split.
  - pose proof (keeps_uploadJson w2 (collection_metadata name r) None None
                  None None h1) as Hkeep.
    rewrite Hjson in Hkeep. cbn [snd] in Hkeep. congruence.
  - intros Hnone.
    revert Hlogo. unfold uploadFile, try_catch, uploadFile_try.
    destruct (existsSync w1 filepath); cbn [negb]; run_call.
    + destruct (readFileSync w1 filepath) as [e|content]; simpl;
        [|rewrite Hnone]; intros [= <- <-];
        revert Hjson; unfold uploadJson, try_catch, uploadJson_try;
        cbn [negb ToBoolean collection_metadata]; run_call;
        rewrite Hnone; intros [= <- <-]; repeat split.
    + intros [= <- <-].
      revert Hjson. unfold uploadJson, try_catch, uploadJson_try.
      cbn [negb ToBoolean collection_metadata]. run_call.
      rewrite Hnone. intros [= <- <-]. repeat split.
Qed.

Lemma store_collection_fails_quietly_witness :
  exists logo uri h',
    store_collection Sample.calm later "a/b/photo.PNG" "Eliza"
      Sample.empty_heap = (Normal (logo, uri), h')
    /\ this h' = this Sample.empty_heap
    /\ (s3Client (this Sample.empty_heap) = None ->
        success logo = false /\ uri = None /\ log h' = log Sample.empty_heap).
Proof.
  apply (store_collection_fails_quietly Sample.calm later Sample.empty_heap).
Defined.

(** X23. An image the generator returns as a data URL with a
    word-character subtype is never fetched: the handler's choice sends it
    to saveBase64Image, which writes the decoding of the part after the
    comma to [generated_{timestamp}_{index}.png] in the image directory. *)
Theorem generated_data_url_is_saved (host : Host) (now : Z) (i : nat)
    (w rest : string) (t : list effect) :
  w <> "" -> all_word w = true ->
  dir_exists host (imageDir host) = true ->
  let filepath :=
    join host (imageDir host)
      ("generated_" +:+ pretty now +:+ "_" +:+ pretty i +:+ ".png") in
  writeFileSync host filepath (from_base64 host rest) = inr tt ->
  save_generated host now i ("data:image/" +:+ w +:+ ";base64," +:+ rest) t
  = (Normal filepath,
     (t ++ [WriteFile filepath (from_base64 host rest)])%list).
Proof.
  intros Hne Hw Hdir filepath Hwrite. unfold save_generated.
  change (String.prefix "http"
            ("data:image/" +:+ w +:+ ";base64," +:+ rest)) with false.
  cbv iota.
  unfold saveBase64Image, ensure_imageDir, io_bind, io_ret, perform.
  rewrite Hdir. cbn [negb]. rewrite (strip_data_url_match w rest Hne Hw).
  assert (Hname : ("generated_" +:+ pretty now +:+ "_" +:+ pretty i)
                  +:+ ".png"
                  = "generated_" +:+ pretty now +:+ "_" +:+ pretty i
                    +:+ ".png")
    by (rewrite !append_assoc; reflexivity).
  rewrite Hname. fold filepath. rewrite Hwrite. reflexivity.
Qed.

Lemma generated_data_url_is_saved_witness :
  save_generated plain_host 1700000000000 0
    "data:image/png;base64,iVBORw0KGgo=" []
  = (Normal "/srv/agent/generatedImages/generated_1700000000000_0.png",
     [WriteFile "/srv/agent/generatedImages/generated_1700000000000_0.png"
        "iVBORw0KGgo="]).
Proof.
  apply (generated_data_url_is_saved plain_host 1700000000000 0 "png"
           "iVBORw0KGgo=" []); try reflexivity.
  discriminate.
Defined.
